(** * tikapy: the RouterOS API clients of [tikapy/__init__.py]

    A shallow embedding of [TikapyBaseClient], [TikapyClient] and
    [TikapySslClient].  Python values that reach [tik_to_json], [talk] and
    the [port] setter are dynamically typed, so they are embedded in one
    universe [pyval]; exceptions are explicit results; the session object is
    a record threaded through a small state/trace/exception monad whose
    trace lists the calls made to the operating system, to [ssl] and to the
    protocol engine ([ApiRos]). *)

From Stdlib Require Import ZArith List String Ascii Bool Lia DecimalString.
Import ListNotations.
Open Scope string_scope.
Open Scope Z_scope.
Set Warnings "-register-all".

(** ** Python values and exceptions *)

Module Py.

(** The values the client code can be handed: [None], integers, strings,
    lists, tuples and insertion-ordered dictionaries. *)
Inductive pyval : Type :=
| PNone
| PInt (z : Z)
| PStr (s : string)
| PList (l : list pyval)
| PTuple (l : list pyval)
| PDict (d : list (pyval * pyval)).

(** Exceptions raised by the code or by what it calls.  [ValueError] and
    [ClientError] carry their message and the [raise ... from exc] cause.
    [OSError] is [socket.error]; [SSLError] is its subclass [ssl.SSLError]. *)
Inductive exn : Type :=
| IndexError
| KeyError
| TypeError
| AttributeError
| ValueError (msg : string) (cause : option exn)
| ClientError (msg : string) (cause : option exn)
| ApiError
| ApiUnrecoverableError
| OSError
| SSLError.

Inductive result (A : Type) : Type :=
| Ok (a : A)
| Raise (e : exn).
Arguments Ok {A} a.
Arguments Raise {A} e.

Definition bind {A B} (c : result A) (k : A -> result B) : result B :=
  match c with
  | Ok a => k a
  | Raise e => Raise e
  end.

Declare Scope py_scope.
Delimit Scope py_scope with py.
Notation "x <- c ;; k" := (bind c (fun x => k))
  (at level 100, c at next level, right associativity) : py_scope.
Open Scope py_scope.

(** [[f(x) for x in l]]: left to right, stopping at the first exception. *)
Fixpoint mapM {A B} (f : A -> result B) (l : list A) : result (list B) :=
  match l with
  | [] => Ok []
  | x :: l' => y <- f x ;; ys <- mapM f l' ;; Ok (y :: ys)
  end.

Fixpoint foldM {A B} (f : A -> B -> result A) (l : list B) (a : A) : result A :=
  match l with
  | [] => Ok a
  | x :: l' => a' <- f a x ;; foldM f l' a'
  end.

(** Truth value of an object ([not v] is its negation). *)
Definition truthy (v : pyval) : bool :=
  match v with
  | PNone => false
  | PInt z => negb (z =? 0)
  | PStr s => negb (s =? EmptyString)%string
  | PList l | PTuple l => match l with [] => false | _ => true end
  | PDict d => match d with [] => false | _ => true end
  end.

(** [hash(v)] succeeds: lists and dictionaries are unhashable, a tuple is
    hashable when its components are. *)
Fixpoint hashable (v : pyval) : bool :=
  match v with
  | PNone | PInt _ | PStr _ => true
  | PTuple l => forallb hashable l
  | PList _ | PDict _ => false
  end.

(** [a == b] on hashable values (the only ones compared as dictionary
    keys): structural.  Lists and dictionaries never occur as keys. *)
Fixpoint key_eqb (a b : pyval) : bool :=
  match a, b with
  | PNone, PNone => true
  | PInt x, PInt y => (x =? y)
  | PStr x, PStr y => (x =? y)%string
  | PTuple x, PTuple y =>
      (fix go (l1 l2 : list pyval) : bool :=
         match l1, l2 with
         | [], [] => true
         | u :: l1', v :: l2' => key_eqb u v && go l1' l2'
         | _, _ => false
         end) x y
  | _, _ => false
  end.

(** [v == '<s>'] for a string literal. *)
Definition eq_str (v : pyval) (s : string) : bool :=
  match v with
  | PStr x => (x =? s)%string
  | _ => false
  end.

(** Position selected by the index [i] in a sequence of length [len];
    negative indices count from the end. *)
Definition norm_index (len : nat) (i : Z) : option nat :=
  if 0 <=? i then
    if i <? Z.of_nat len then Some (Z.to_nat i) else None
  else
    if - Z.of_nat len <=? i then Some (Z.to_nat (Z.of_nat len + i)) else None.

Definition seq_getitem (l : list pyval) (i : Z) : result pyval :=
  match norm_index (List.length l) i with
  | Some n => match nth_error l n with
              | Some v => Ok v
              | None => Raise IndexError
              end
  | None => Raise IndexError
  end.

Definition str_getitem (s : string) (i : Z) : result pyval :=
  match norm_index (String.length s) i with
  | Some n => match String.get n s with
              | Some c => Ok (PStr (String c EmptyString))
              | None => Raise IndexError
              end
  | None => Raise IndexError
  end.

Fixpoint dict_get (d : list (pyval * pyval)) (k : pyval) : option pyval :=
  match d with
  | [] => None
  | (k', v) :: d' => if key_eqb k' k then Some v else dict_get d' k
  end.

(** [v[k]] for an index or key [k] (not a slice). *)
Definition getitem (v k : pyval) : result pyval :=
  match v with
  | PList l | PTuple l =>
      match k with
      | PInt i => seq_getitem l i
      | _ => Raise TypeError
      end
  | PStr s =>
      match k with
      | PInt i => str_getitem s i
      | _ => Raise TypeError
      end
  | PDict d =>
      if hashable k then
        match dict_get d k with
        | Some x => Ok x
        | None => Raise KeyError
        end
      else Raise TypeError
  | PNone | PInt _ => Raise TypeError
  end.

Definition str_tail (s : string) : string :=
  match s with
  | EmptyString => EmptyString
  | String _ s' => s'
  end.

(** [v[1:]].  On a dictionary the slice is used as a key: unhashable before
    Python 3.12, hence [TypeError]. *)
Definition slice_from_1 (v : pyval) : result pyval :=
  match v with
  | PStr s => Ok (PStr (str_tail s))
  | PList l => Ok (PList (tl l))
  | PTuple l => Ok (PTuple (tl l))
  | PDict _ | PNone | PInt _ => Raise TypeError
  end.

Fixpoint chars (s : string) : list pyval :=
  match s with
  | EmptyString => []
  | String c s' => PStr (String c EmptyString) :: chars s'
  end.

(** [for x in v]. *)
Definition iter (v : pyval) : result (list pyval) :=
  match v with
  | PList l | PTuple l => Ok l
  | PStr s => Ok (chars s)
  | PDict d => Ok (map fst d)
  | PNone | PInt _ => Raise TypeError
  end.

(** [v.keys()]: only dictionaries have the attribute. *)
Definition keys (v : pyval) : result (list pyval) :=
  match v with
  | PDict d => Ok (map fst d)
  | _ => Raise AttributeError
  end.

(** [k in ks]. *)
Definition contains (ks : list pyval) (k : pyval) : bool :=
  existsb (fun k' => key_eqb k' k) ks.

(** [d[k] = v] on the entries of a dictionary: an existing key keeps its
    position and its key object, a new key goes last. *)
Fixpoint upsert (d : list (pyval * pyval)) (k v : pyval) : list (pyval * pyval) :=
  match d with
  | [] => [(k, v)]
  | (k', v') :: d' =>
      if key_eqb k' k then (k', v) :: d' else (k', v') :: upsert d' k v
  end.

Definition dict_setitem (d : list (pyval * pyval)) (k v : pyval)
  : result (list (pyval * pyval)) :=
  if hashable k then Ok (upsert d k v) else Raise TypeError.

End Py.
Import Py.

(** ** [tik_to_json] *)

(** Outcome of the first [try] block: a value was returned, or control
    reached the end of the block. *)
Inductive scalar_outcome : Type :=
| Returned (v : pyval)
| FellThrough.

(** [if tikoutput[0][0] == '!done': return tikoutput[0][1]['ret']] *)
Definition scalar_body (tikoutput : pyval) : result scalar_outcome :=
  first <- getitem tikoutput (PInt 0) ;;
  tag <- getitem first (PInt 0) ;;
  if eq_str tag "!done" then
    first' <- getitem tikoutput (PInt 0) ;;
    attrs <- getitem first' (PInt 1) ;;
    ret <- getitem attrs (PStr "ret") ;;
    Ok (Returned ret)
  else Ok FellThrough.

(** The first [try ... except (IndexError, KeyError): pass]. *)
Definition scalar_step (tikoutput : pyval) : result scalar_outcome :=
  match scalar_body tikoutput with
  | Raise IndexError | Raise KeyError => Ok FellThrough
  | r => r
  end.

(** One round of the dict comprehension, for the element [d]. *)
Definition mapping_add (m : list (pyval * pyval)) (d : pyval)
  : result (list (pyval * pyval)) :=
  ks <- keys d ;;
  if contains ks (PStr ".id") then
    id <- getitem d (PStr ".id") ;;
    k <- slice_from_1 id ;;
    dict_setitem m k d
  else Ok m.

(** [{d['.id'][1:]: d for d in ([x[1] for x in tikoutput]) if '.id' in d.keys()}] *)
Definition mapping_body (tikoutput : pyval) : result pyval :=
  xs <- iter tikoutput ;;
  ds <- mapM (fun x => getitem x (PInt 1)) xs ;;
  m <- foldM mapping_add ds [] ;;
  Ok (PDict m).

Definition json_msg : string := "unable to convert api output to json".

(** The second [try ... except (TypeError, IndexError) as exc: raise
    ClientError(...) from exc]. *)
Definition mapping_step (tikoutput : pyval) : result pyval :=
  match mapping_body tikoutput with
  | Raise TypeError => Raise (ClientError json_msg (Some TypeError))
  | Raise IndexError => Raise (ClientError json_msg (Some IndexError))
  | r => r
  end.

Definition tik_to_json (tikoutput : pyval) : result pyval :=
  match scalar_step tikoutput with
  | Ok (Returned v) => Ok v
  | Ok FellThrough => mapping_step tikoutput
  | Raise e => Raise e
  end.

(** *** Well-typed sentences

    What the protocol engine hands out: a list of [(reply, attrs)] tuples,
    [attrs] a dictionary from attribute names to string values. *)

Definition attrs : Type := list (string * string).
Definition record : Type := (string * attrs)%type.
Definition sentence : Type := list record.

Definition py_attrs (a : attrs) : pyval :=
  PDict (map (fun kv => (PStr (fst kv), PStr (snd kv))) a).

Definition py_record (r : record) : pyval :=
  PTuple [PStr (fst r); py_attrs (snd r)].

Definition py_sentence (s : sentence) : pyval :=
  PList (map py_record s).

(** Value bound to the key [k] in an ordered mapping, if any. *)
Fixpoint assoc {V} (l : list (string * V)) (k : string) : option V :=
  match l with
  | [] => None
  | (k', v) :: l' => if (k' =? k)%string then Some v else assoc l' k
  end.

(** The sentence is answered by the scalar branch: its first record is
    tagged [!done] and has a [ret] attribute. *)
Definition scalar_hit (s : sentence) : bool :=
  match s with
  | (tag, a) :: _ =>
      (tag =? "!done")%string && match assoc a "ret" with Some _ => true | None => false end
  | [] => false
  end.

(** The mapping key of an attribute record: its [.id] without the first
    character. *)
Definition id_key (a : attrs) : option string :=
  option_map str_tail (assoc a ".id").

(** The records that have an [.id], each under its mapping key, in sentence
    order. *)
Fixpoint keyed (s : sentence) : list (string * attrs) :=
  match s with
  | [] => []
  | (_, a) :: s' =>
      match id_key a with
      | Some k => (k, a) :: keyed s'
      | None => keyed s'
      end
  end.

(** The keys of [l] in order of first appearance, each once. *)
Fixpoint first_appearances (l : list string) : list string :=
  match l with
  | [] => []
  | k :: l' => k :: filter (fun k' => negb (k' =? k)%string) (first_appearances l')
  end.

(** The value of the last pair of [l] whose key is [k]. *)
Fixpoint last_binding {V} (l : list (string * V)) (k : string) : option V :=
  match l with
  | [] => None
  | (k', v) :: l' =>
      match last_binding l' k with
      | Some v' => Some v'
      | None => if (k' =? k)%string then Some v else None
      end
  end.

(** [m[k] = a] on a mapping from keys to attribute records. *)
Fixpoint upsert_s (m : list (string * attrs)) (k : string) (a : attrs)
  : list (string * attrs) :=
  match m with
  | [] => [(k, a)]
  | (k', a') :: m' =>
      if (k' =? k)%string then (k', a) :: m' else (k', a') :: upsert_s m' k a
  end.

(** The mapping obtained by storing the pairs of [l] from left to right. *)
Definition build (l : list (string * attrs)) : list (string * attrs) :=
  fold_left (fun m ka => upsert_s m (fst ka) (snd ka)) l [].

Definition py_entries (m : list (string * attrs)) : list (pyval * pyval) :=
  map (fun kv => (PStr (fst kv), py_attrs (snd kv))) m.

Definition py_mapping (m : list (string * attrs)) : pyval :=
  PDict (py_entries m).

(** [k in l] for a list of keys. *)
Definition has (k : string) (l : list string) : bool :=
  existsb (fun k' => (k' =? k)%string) l.

(** A record given as a list or tuple. *)
Definition seq_record (r : pyval) : bool :=
  match r with
  | PList _ | PTuple _ => true
  | _ => false
  end.

(** A list or tuple with fewer than the two components of a record. *)
Definition short_record (r : pyval) : bool :=
  match r with
  | PList xs | PTuple xs => (List.length xs <? 2)%nat
  | _ => false
  end.

(** Two records with the same [.id]. *)
Definition twice : sentence :=
  [("!re", [(".id", "*1"); ("name", "eth0")]);
   ("!re", [(".id", "*1"); ("name", "eth1")]);
   ("!done", [])].

(** The exceptions that the operations of the mapping step can raise. *)
Definition mapping_error (e : exn) : Prop :=
  e = IndexError \/ e = KeyError \/ e = TypeError \/ e = AttributeError.

(** ** The world outside the client *)

(** One entry of [socket.getaddrinfo]'s answer. *)
Record addrinfo : Type := mkAddrinfo {
  family : Z;
  socktype : Z;
  proto : Z;
  canonname : string;
  sockaddr : pyval }.

(** A resolved address together with how the operating system answers the
    three calls made for it ([None]: the call succeeds). *)
Record candidate : Type := mkCandidate {
  info : addrinfo;
  on_socket : option exn;
  on_settimeout : option exn;
  on_connect : option exn }.

Inductive verify_mode_t : Type := CERT_NONE | CERT_OPTIONAL | CERT_REQUIRED.

Record ssl_context : Type := mkContext {
  verify_mode : verify_mode_t;
  check_hostname : bool;
  ciphers : option string }.

(** [ssl.create_default_context()]: the library's client defaults. *)
Definition create_default_context : ssl_context :=
  {| verify_mode := CERT_REQUIRED; check_hostname := true; ciphers := None |}.

Inductive sock : Type :=
| Socket (family socktype proto : Z)
| SSLSocket (ctx : ssl_context) (base : sock) (server_hostname : pyval).

(** [hasattr(s, "getpeercert")]: only [ssl.SSLSocket] has it. *)
Definition hasattr_getpeercert (s : option sock) : bool :=
  match s with
  | Some (SSLSocket _ _ _) => true
  | _ => false
  end.

(** [ApiRos(sk)]. *)
Inductive apiros : Type := ApiRos (sk : option sock).

(** Calls that leave the process, in the order they are made. *)
Inductive event : Type :=
| EvGetaddrinfo (host port : pyval)
| EvSocket (family socktype proto : Z)
| EvSetTimeout (s : sock) (timeOut : pyval)
| EvConnect (s : sock) (addr : pyval)
| EvClose (s : sock)
| EvWrapSocket (ctx : ssl_context) (s : sock) (server_hostname : pyval)
| EvApiLogin (api : apiros) (user password : string) (send_plain_password : bool)
| EvApiTalk (api : apiros) (words : list string).

(** The host, the resolver, the TLS library and the protocol engine. *)
Record env : Type := mkEnv {
  os_name : string;
  sys_platform : string;
  getaddrinfo : pyval -> pyval -> result (list candidate);
  set_ciphers : string -> option exn;
  wrap_socket : ssl_context -> sock -> pyval -> option exn;
  api_login : apiros -> string -> string -> bool -> option exn;
  api_talk : apiros -> list string -> result pyval }.

(** ** The session object *)

Inductive client_class : Type := PlainClient | SslClient.

Record session : Type := mkSession {
  cls : client_class;
  _address : pyval;
  _port : pyval;
  _base_sock : option sock;
  _sock : option sock;
  _api : option apiros;
  verify_cert : bool;
  verify_addr : bool }.

Definition set_address (v : pyval) (s : session) : session :=
  mkSession (cls s) v (_port s) (_base_sock s) (_sock s) (_api s)
            (verify_cert s) (verify_addr s).

Definition set__port (v : pyval) (s : session) : session :=
  mkSession (cls s) (_address s) v (_base_sock s) (_sock s) (_api s)
            (verify_cert s) (verify_addr s).

Definition set__base_sock (v : option sock) (s : session) : session :=
  mkSession (cls s) (_address s) (_port s) v (_sock s) (_api s)
            (verify_cert s) (verify_addr s).

Definition set__sock (v : option sock) (s : session) : session :=
  mkSession (cls s) (_address s) (_port s) (_base_sock s) v (_api s)
            (verify_cert s) (verify_addr s).

Definition set__api (v : option apiros) (s : session) : session :=
  mkSession (cls s) (_address s) (_port s) (_base_sock s) (_sock s) v
            (verify_cert s) (verify_addr s).

Definition set_verify (cert addr : bool) (s : session) : session :=
  mkSession (cls s) (_address s) (_port s) (_base_sock s) (_sock s) (_api s)
            cert addr.

(** [TikapyBaseClient.__init__] *)
Definition init (c : client_class) : session :=
  mkSession c PNone PNone None None None true true.

(** ** Methods: state, trace and exceptions *)

Module Meth.

Definition M (A : Type) : Type := session -> result A * session * list event.

Definition ret {A} (a : A) : M A := fun s => (Ok a, s, []).

Definition raise {A} (e : exn) : M A := fun s => (Raise e, s, []).

Definition mbind {A B} (c : M A) (k : A -> M B) : M B :=
  fun s =>
    match c s with
    | (Ok a, s1, t1) =>
        match k a s1 with
        | (r, s2, t2) => (r, s2, (t1 ++ t2)%list)
        end
    | (Raise e, s1, t1) => (Raise e, s1, t1)
    end.

Definition get : M session := fun s => (Ok s, s, []).

Definition modify (f : session -> session) : M unit := fun s => (Ok tt, f s, []).

Definition lift {A} (r : result A) : M A := fun s => (r, s, []).

Definition emit (ev : event) : M unit := fun s => (Ok tt, s, [ev]).

(** [try: c  except <classes matched by h> as exc: h exc]; an exception
    that [h] does not match propagates. *)
Definition try_except {A} (c : M A) (h : exn -> option (M A)) : M A :=
  fun s =>
    match c s with
    | (Ok a, s1, t1) => (Ok a, s1, t1)
    | (Raise e, s1, t1) =>
        match h e with
        | Some k =>
            match k s1 with
            | (r, s2, t2) => (r, s2, (t1 ++ t2)%list)
            end
        | None => (Raise e, s1, t1)
        end
    end.

End Meth.
Import Meth.

Declare Scope meth_scope.
Delimit Scope meth_scope with meth.
Notation "x <- c ;; k" := (mbind c (fun x => k))
  (at level 100, c at next level, right associativity) : meth_scope.
Notation "c ;;; k" := (mbind c (fun _ => k))
  (at level 100, right associativity) : meth_scope.

(** An outside call: recorded, then it succeeds or raises. *)
Definition call (ev : event) (outcome : option exn) : M unit :=
  (emit ev ;;;
   match outcome with
   | None => ret tt
   | Some e => raise e
   end)%meth.

(** [isinstance(e, socket.error)] *)
Definition is_socket_error (e : exn) : bool :=
  match e with
  | OSError | SSLError => true
  | _ => false
  end.

(** [a < v] for an integer [a]: defined against integers only. *)
Definition int_lt (a : Z) (v : pyval) : result bool :=
  match v with
  | PInt z => Ok (a <? z)
  | _ => Raise TypeError
  end.

(** [v < b] for an integer [b]. *)
Definition lt_int (v : pyval) (b : Z) : result bool :=
  match v with
  | PInt z => Ok (z <? b)
  | _ => Raise TypeError
  end.

(** [0 < value < 65536] *)
Definition valid_port (value : pyval) : result bool :=
  (lo <- int_lt 0 value ;;
   if lo then lt_int value 65536 else Ok false)%py.

(** ['%d' % value] *)
Definition fmt_d (value : pyval) : result string :=
  match value with
  | PInt z => Ok (NilZero.string_of_int (Z.to_int z))
  | _ => Raise TypeError
  end.

Definition port_msg : string := "invalid port number specified".

(** The [port] setter. *)
Definition set_port (value : pyval) : M unit :=
  try_except
    (ok <- lift (valid_port value) ;;
     if negb ok then
       (d <- lift (fmt_d value) ;;
        raise (ValueError (d ++ " is not a valid port number") None))
     else modify (set__port value))%meth
    (fun exc =>
       match exc with
       | ValueError _ _ => Some (raise (ValueError port_msg (Some exc)))
       | _ => None
       end).

(** [TikapyClient(address, port)] *)
Definition TikapyClient (address port : pyval) : M unit :=
  (modify (set_address address) ;;; set_port port)%meth.

(** [TikapySslClient(address, port, verify_cert, verify_addr)] *)
Definition TikapySslClient (address port : pyval) (cert addr : bool) : M unit :=
  (modify (set_address address) ;;; set_port port ;;;
   modify (set_verify cert addr))%meth.

(** The socket object made for a candidate. *)
Definition sock_of (c : candidate) : sock :=
  Socket (family (info c)) (socktype (info c)) (proto (info c)).

(** The candidate cannot be used: creating its socket, setting the
    timeout or connecting raises [socket.error]. *)
Definition candidate_fails (c : candidate) : bool :=
  match on_socket c with
  | Some e => is_socket_error e
  | None =>
      match on_settimeout c with
      | Some e => is_socket_error e
      | None =>
          match on_connect c with
          | Some e => is_socket_error e
          | None => false
          end
      end
  end.

(** The three calls made for the candidate succeed. *)
Definition candidate_connects (c : candidate) : bool :=
  match on_socket c, on_settimeout c, on_connect c with
  | None, None, None => true
  | _, _, _ => false
  end.

(** The calls made for one candidate that fails or connects: each call up
    to the first that raises, and [close] after a failed [connect]. *)
Definition attempt (timeOut : pyval) (c : candidate) : list event :=
  EvSocket (family (info c)) (socktype (info c)) (proto (info c))
  :: match on_socket c with
     | Some _ => []
     | None =>
         EvSetTimeout (sock_of c) timeOut
         :: match on_settimeout c with
            | Some _ => []
            | None =>
                EvConnect (sock_of c) (sockaddr (info c))
                :: match on_connect c with
                   | Some _ => [EvClose (sock_of c)]
                   | None => []
                   end
            end
     end.

(** Calls of the transport layer below TLS. *)
Definition socket_event (ev : event) : bool :=
  match ev with
  | EvGetaddrinfo _ _ | EvSocket _ _ _ | EvSetTimeout _ _
  | EvConnect _ _ | EvClose _ => true
  | _ => false
  end.

(** [x] with [tr0] put before its trace. *)
Definition prepend {A} (tr0 : list event) (x : result A * session * list event)
  : result A * session * list event :=
  match x with
  | (r, s, tr) => (r, s, (tr0 ++ tr)%list)
  end.

Section Client.

Variable E : env.

Definition socket_msg : string := "could not open socket".

(** The body of the [for] loop of [_connect_socket] over the candidates
    that are left; [break] ends it, [continue] goes to the next one. *)
Fixpoint connect_loop (timeOut : pyval) (cands : list candidate) : M unit :=
  match cands with
  | [] => ret tt
  | c :: rest =>
      let i := info c in
      let sk := Socket (family i) (socktype i) (proto i) in
      (created <-
         try_except
           (call (EvSocket (family i) (socktype i) (proto i)) (on_socket c) ;;;
            modify (set__base_sock (Some sk)) ;;;
            call (EvSetTimeout sk timeOut) (on_settimeout c) ;;;
            ret true)
           (fun exc =>
              if is_socket_error exc
              then Some (modify (set__base_sock None) ;;; ret false)
              else None) ;;
       if created then
         connected <-
           try_except
             (s <- get ;;
              match _base_sock s with
              | Some b => call (EvConnect b (sockaddr i)) (on_connect c) ;;; ret true
              | None => raise AttributeError
              end)
             (fun exc =>
                if is_socket_error exc
                then Some (s <- get ;;
                           match _base_sock s with
                           | Some b => emit (EvClose b) ;;;
                                       modify (set__base_sock None) ;;; ret false
                           | None => raise AttributeError
                           end)
                else None) ;;
         if connected then ret tt else connect_loop timeOut rest
       else connect_loop timeOut rest)%meth
  end.

Definition _connect_socket (timeOut : pyval) : M unit :=
  (s <- get ;;
   if negb (truthy (_address s)) then
     raise (ClientError "address has not been set" None)
   else if negb (truthy (_port s)) then
     raise (ClientError "address has not been set" None)
   else
     emit (EvGetaddrinfo (_address s) (_port s)) ;;;
     cands <- lift (getaddrinfo E (_address s) (_port s)) ;;
     connect_loop timeOut cands ;;;
     s' <- get ;;
     match _base_sock s' with
     | None => raise (ClientError socket_msg None)
     | Some _ => ret tt
     end)%meth.

(** [TikapyBaseClient._connect] *)
Definition _connect_plain (timeOut : pyval) : M unit :=
  (_connect_socket timeOut ;;;
   s <- get ;;
   modify (set__sock (_base_sock s)))%meth.

(** ["win" in sys.platform] *)
Definition has_win (platform : string) : bool :=
  match String.index 0 "win" platform with
  | Some _ => true
  | None => false
  end.

(** [(os.name == "nt") and ("win" in sys.platform)] *)
Definition on_windows : bool :=
  (os_name E =? "nt")%string && has_win (sys_platform E).

Definition with_verify_mode (m : verify_mode_t) (c : ssl_context) : ssl_context :=
  mkContext m (check_hostname c) (ciphers c).

Definition with_check_hostname (b : bool) (c : ssl_context) : ssl_context :=
  mkContext (verify_mode c) b (ciphers c).

(** [ctx.set_ciphers(spec)] *)
Definition ctx_set_ciphers (spec : string) (c : ssl_context) : result ssl_context :=
  match set_ciphers E spec with
  | None => Ok (mkContext (verify_mode c) (check_hostname c) (Some spec))
  | Some e => Raise e
  end.

(** The context built by [TikapySslClient._connect], by branch. *)
Definition make_context (s : session) : result ssl_context :=
  if on_windows then
    let ctx := create_default_context in
    let ctx := if negb (verify_cert s) then with_verify_mode CERT_OPTIONAL ctx else ctx in
    let ctx := if negb (verify_addr s) then with_check_hostname false ctx else ctx in
    ctx_set_ciphers "ADH:@SECLEVEL=0" ctx
  else
    let ctx := create_default_context in
    let ctx := with_verify_mode CERT_OPTIONAL ctx in
    let ctx := with_check_hostname false ctx in
    ctx_set_ciphers "ADH" ctx.

Definition ssl_msg : string := "could not establish SSL connection".

(** [TikapySslClient._connect] *)
Definition _connect_ssl (timeOut : pyval) : M unit :=
  (_connect_socket timeOut ;;;
   try_except
     (s <- get ;;
      ctx <- lift (make_context s) ;;
      match _base_sock s with
      | Some b =>
          call (EvWrapSocket ctx b (_address s)) (wrap_socket E ctx b (_address s)) ;;;
          modify (set__sock (Some (SSLSocket ctx b (_address s))))
      | None => raise AttributeError
      end)
     (fun exc =>
        match exc with
        | SSLError => Some (raise (ClientError ssl_msg None))
        | _ => None
        end))%meth.

(** [self._connect(timeOut)], by the class of the object. *)
Definition _connect (timeOut : pyval) : M unit :=
  (s <- get ;;
   match cls s with
   | PlainClient => _connect_plain timeOut
   | SslClient => _connect_ssl timeOut
   end)%meth.

Definition login (user password : string) (timeOut : pyval)
           (allow_insecure_auth_without_tls : bool) : M unit :=
  (_connect timeOut ;;;
   s <- get ;;
   modify (set__api (Some (ApiRos (_sock s)))) ;;;
   try_except
     (s <- get ;;
      let socket_is_tls := hasattr_getpeercert (_sock s) in
      let send_plain_password := socket_is_tls || allow_insecure_auth_without_tls in
      match _api s with
      | Some api =>
          call (EvApiLogin api user password send_plain_password)
               (api_login E api user password send_plain_password)
      | None => raise AttributeError
      end)
     (fun exc =>
        match exc with
        | ApiError | ApiUnrecoverableError =>
            Some (raise (ClientError "could not login" (Some exc)))
        | _ => None
        end))%meth.

(** [words] as a list of strings, when
    [isinstance(words, list) and all(isinstance(x, str) for x in words)]. *)
Fixpoint all_str (l : list pyval) : option (list string) :=
  match l with
  | [] => Some []
  | PStr x :: l' => option_map (cons x) (all_str l')
  | _ :: _ => None
  end.

Definition list_of_str (words : pyval) : option (list string) :=
  match words with
  | PList l => all_str l
  | _ => None
  end.

Definition words_msg : string := "words needs to be a list of strings".

Definition talk (words : pyval) : M pyval :=
  match list_of_str words with
  | Some ws =>
      try_except
        (s <- get ;;
         match _api s with
         | Some api =>
             emit (EvApiTalk api ws) ;;;
             out <- lift (api_talk E api ws) ;;
             lift (tik_to_json out)
         | None => raise AttributeError
         end)%meth
        (fun exc =>
           match exc with
           | ApiError | ApiUnrecoverableError =>
               Some (raise (ClientError "could not talk to api" (Some exc)))
           | _ => None
           end)
  | None => raise (ValueError words_msg None)
  end.

End Client.

(** ** Teardown *)

(** [try: if o: o.close()  except socket.error: pass], where [close] tells
    how closing a socket answers ([None]: it succeeds).  A socket object is
    always true, [None] is false. *)
Definition close_quietly (close : sock -> option exn) (o : option sock) : M unit :=
  try_except
    match o with
    | Some sk => call (EvClose sk) (close sk)
    | None => ret tt
    end
    (fun exc => if is_socket_error exc then Some (ret tt) else None).

Definition disconnect (close : sock -> option exn) : M unit :=
  (s <- get ;;
   close_quietly close (_sock s) ;;;
   s' <- get ;;
   close_quietly close (_base_sock s'))%meth.

(** [__del__] *)
Definition del (close : sock -> option exn) : M unit := disconnect close.

(** The [close] call made for an attribute that holds a socket. *)
Definition closes (o : option sock) : list event :=
  match o with
  | Some sk => [EvClose sk]
  | None => []
  end.

(** The exception that ends the loop at the candidate: the first of its
    three calls that raises, when what it raises is not [socket.error]. *)
Definition candidate_aborts (c : candidate) : option exn :=
  match on_socket c with
  | Some e => if is_socket_error e then None else Some e
  | None =>
      match on_settimeout c with
      | Some e => if is_socket_error e then None else Some e
      | None =>
          match on_connect c with
          | Some e => if is_socket_error e then None else Some e
          | None => None
          end
      end
  end.

(** The calls made for a candidate up to the first one that raises. *)
Definition calls_until_raise (timeOut : pyval) (c : candidate) : list event :=
  EvSocket (family (info c)) (socktype (info c)) (proto (info c))
  :: match on_socket c with
     | Some _ => []
     | None =>
         EvSetTimeout (sock_of c) timeOut
         :: match on_settimeout c with
            | Some _ => []
            | None => [EvConnect (sock_of c) (sockaddr (info c))]
            end
     end.

(** The cipher string of the host's branch. *)
Definition branch_ciphers (E : env) : string :=
  if on_windows E then "ADH:@SECLEVEL=0" else "ADH".

(** ** Sample worlds *)

(** A world on the host [os]/[platform] whose resolver answers [cands],
    where every cipher string is accepted, and where the handshake, the
    engine's login and the engine's talk answer as given. *)
Definition world (os platform : string) (cands : list candidate)
           (handshake login_outcome : option exn) (reply : result pyval) : env :=
  mkEnv os platform
        (fun _ _ => Ok cands)
        (fun _ => None)
        (fun _ _ _ => handshake)
        (fun _ _ _ _ => login_outcome)
        (fun _ _ => reply).

Definition addr4 : addrinfo :=
  mkAddrinfo 2 1 6 EmptyString (PTuple [PStr "192.0.2.1"; PInt 8729]).

Definition addr6 : addrinfo :=
  mkAddrinfo 10 1 6 EmptyString (PTuple [PStr "2001:db8::1"; PInt 8729; PInt 0; PInt 0]).

(** The address answers. *)
Definition reachable (i : addrinfo) : candidate := mkCandidate i None None None.

(** [connect] to the address raises [socket.error]. *)
Definition refused (i : addrinfo) : candidate :=
  mkCandidate i None None (Some OSError).

(** No socket of the address's family can be created. *)
Definition unsupported (i : addrinfo) : candidate :=
  mkCandidate i (Some OSError) None None.

(** A Linux host where the router is reached and everything succeeds. *)
Definition lab : env :=
  world "posix" "linux" [reachable addr4] None None (Ok (PList [])).

(** A session object of class [c] for the router of the sample worlds. *)
Definition router (c : client_class) (cert addr : bool) : session :=
  mkSession c (PStr "router.example") (PInt 8729) None None None cert addr.

(** A host whose resolver fails. *)
Definition offline : env :=
  mkEnv "posix" "linux"
        (fun _ _ => Raise OSError)
        (fun _ => None)
        (fun _ _ _ => None)
        (fun _ _ _ _ => None)
        (fun _ _ => Ok (PList [])).

(** A host whose TLS library has no anonymous cipher suite. *)
Definition no_adh : env :=
  mkEnv "posix" "linux"
        (fun _ _ => Ok [reachable addr4])
        (fun _ => Some SSLError)
        (fun _ _ _ => None)
        (fun _ _ _ _ => None)
        (fun _ _ => Ok (PList [])).

(** [settimeout] rejects the timeout value for the address. *)
Definition bad_timeout (i : addrinfo) : candidate :=
  mkCandidate i None (Some (ValueError "Timeout value out of range" None)) None.

(** Closing always succeeds; closing always raises [socket.error]. *)
Definition close_ok : sock -> option exn := fun _ => None.
Definition close_fails : sock -> option exn := fun _ => Some OSError.

(** The reply of the protocol engine to [/interface/print]. *)
Definition interfaces : sentence :=
  [("!re", [(".id", "*1"); ("name", "ether1")]);
   ("!re", [(".id", "*2"); ("name", "ether2")]);
   ("!done", [])].

(** * Properties *)

(** The three normalisation scenarios of the documentation. *)
Example scenario_scalar :
  tik_to_json (PList [PTuple [PStr "!done"; PDict [(PStr "ret", PStr "42")]]])
  = Ok (PStr "42").
Proof. reflexivity. Qed.

Example scenario_mapping :
  let r1 := PDict [(PStr ".id", PStr "*1"); (PStr "name", PStr "eth0")] in
  let r2 := PDict [(PStr ".id", PStr "*2"); (PStr "name", PStr "eth1")] in
  tik_to_json (PList [PTuple [PStr "!re"; r1]; PTuple [PStr "!re"; r2];
                      PTuple [PStr "!done"; PDict []]])
  = Ok (PDict [(PStr "1", r1); (PStr "2", r2)]).
Proof. reflexivity. Qed.

Example scenario_no_id :
  tik_to_json (PList [PTuple [PStr "!re"; PDict [(PStr "foo", PStr "bar")]];
                      PTuple [PStr "!done"; PDict []]])
  = Ok (PDict []).
Proof. reflexivity. Qed.

(** ** Normalisation of well-typed sentences *)

Section TypedSentences.

Local Open Scope nat_scope.
Local Open Scope list_scope.

Lemma dict_get_py_attrs (a : attrs) (k : string) :
  dict_get (map (fun kv => (PStr (fst kv), PStr (snd kv))) a) (PStr k)
  = option_map PStr (assoc a k).
Proof.
  induction a as [|[k' v] a IH]; simpl; [reflexivity|].
  destruct (k' =? k)%string; [reflexivity | exact IH].
Qed.

Lemma contains_py_attrs (a : attrs) (k : string) :
  contains (map fst (map (fun kv => (PStr (fst kv), PStr (snd kv))) a)) (PStr k)
  = match assoc a k with Some _ => true | None => false end.
Proof.
  unfold contains.
  induction a as [|[k' v] a IH]; simpl; [reflexivity|].
  destruct (k' =? k)%string; [reflexivity | exact IH].
Qed.

Lemma upsert_py_entries (m : list (string * attrs)) (k : string) (a : attrs) :
  upsert (py_entries m) (PStr k) (py_attrs a) = py_entries (upsert_s m k a).
Proof.
  induction m as [|[k' a'] m IH]; simpl; [reflexivity|].
  destruct (k' =? k)%string; simpl; [reflexivity|].
  now rewrite IH.
Qed.

(** One round of the comprehension on a well-typed attribute record. *)
Lemma mapping_add_typed (m : list (string * attrs)) (a : attrs) :
  mapping_add (py_entries m) (py_attrs a)
  = Ok (py_entries match id_key a with
                   | Some k => upsert_s m k a
                   | None => m
                   end).
Proof.
  unfold mapping_add, id_key, py_attrs. cbn [keys bind].
  rewrite contains_py_attrs.
  destruct (assoc a ".id") as [v|] eqn:Hid; [|reflexivity].
  cbn [getitem hashable]. rewrite dict_get_py_attrs, Hid.
  cbn [option_map bind slice_from_1]. unfold dict_setitem. cbn [hashable].
  f_equal. apply (upsert_py_entries m (str_tail v) a).
Qed.

Lemma getitem_record_1 (r : record) :
  getitem (py_record r) (PInt 1) = Ok (py_attrs (snd r)).
Proof. reflexivity. Qed.

Lemma mapM_records (s : sentence) :
  mapM (fun x => getitem x (PInt 1)) (map py_record s)
  = Ok (map (fun r => py_attrs (snd r)) s).
Proof.
  induction s as [|r s IH]; [reflexivity|].
  cbn [map mapM]. rewrite getitem_record_1. cbn [bind]. rewrite IH. reflexivity.
Qed.

Lemma foldM_typed (s : sentence) (m : list (string * attrs)) :
  foldM mapping_add (map (fun r => py_attrs (snd r)) s) (py_entries m)
  = Ok (py_entries (fold_left (fun m ka => upsert_s m (fst ka) (snd ka)) (keyed s) m)).
Proof.
  revert m. induction s as [|[tag a] s IH]; intros m; [reflexivity|].
  cbn [map foldM snd keyed]. rewrite mapping_add_typed. cbn [bind].
  destruct (id_key a) as [k|]; apply IH.
Qed.

Lemma mapping_step_typed (s : sentence) :
  mapping_step (py_sentence s) = Ok (py_mapping (build (keyed s))).
Proof.
  unfold mapping_step, mapping_body, py_sentence. cbn [iter bind].
  rewrite mapM_records. cbn [bind].
  pose proof (foldM_typed s []) as H. cbn [py_entries map] in H.
  rewrite H. reflexivity.
Qed.

Lemma getitem_py_attrs (a : attrs) (k : string) :
  getitem (py_attrs a) (PStr k)
  = match assoc a k with
    | Some v => Ok (PStr v)
    | None => Raise KeyError
    end.
Proof.
  unfold py_attrs. cbn [getitem hashable]. rewrite dict_get_py_attrs.
  destruct (assoc a k); reflexivity.
Qed.

Lemma scalar_step_typed (s : sentence) :
  scalar_step (py_sentence s)
  = match s with
    | (tag, a) :: _ =>
        if (tag =? "!done")%string then
          match assoc a "ret" with
          | Some v => Ok (Returned (PStr v))
          | None => Ok FellThrough
          end
        else Ok FellThrough
    | [] => Ok FellThrough
    end.
Proof.
  destruct s as [|[tag a] s]; [reflexivity|].
  unfold scalar_step, scalar_body.
  change (getitem (py_sentence ((tag, a) :: s)) (PInt 0))
    with (Ok (A:=pyval) (py_record (tag, a))).
  cbn [bind].
  change (getitem (py_record (tag, a)) (PInt 0)) with (Ok (A:=pyval) (PStr tag)).
  cbn [bind eq_str].
  destruct (tag =? "!done")%string; [|reflexivity].
  change (getitem (py_record (tag, a)) (PInt 1)) with (Ok (A:=pyval) (py_attrs a)).
  cbn [bind]. rewrite getitem_py_attrs.
  destruct (assoc a "ret"); reflexivity.
Qed.

Lemma tik_to_json_typed (s : sentence) :
  scalar_hit s = false ->
  tik_to_json (py_sentence s) = Ok (py_mapping (build (keyed s))).
Proof.
  intros H. unfold tik_to_json. rewrite scalar_step_typed.
  destruct s as [|[tag a] s]; [apply mapping_step_typed|].
  cbn [scalar_hit] in H.
  destruct (tag =? "!done")%string; [|apply mapping_step_typed].
  destruct (assoc a "ret"); [discriminate H | apply mapping_step_typed].
Qed.

(** *** The mapping that [build] produces *)

Lemma filter_twice {A} (p q : A -> bool) (l : list A) :
  filter p (filter q l) = filter (fun x => q x && p x) l.
Proof.
  induction l as [|x l IH]; simpl; [reflexivity|].
  destruct (q x); simpl; [destruct (p x)|]; now rewrite IH.
Qed.

Lemma keys_upsert_s (m : list (string * attrs)) (k : string) (a : attrs) :
  map fst (upsert_s m k a)
  = map fst m ++ (if has k (map fst m) then [] else [k]).
Proof.
  unfold has. induction m as [|[k' a'] m IH]; simpl; [reflexivity|].
  destruct (k' =? k)%string eqn:Hk; simpl.
  - now rewrite app_nil_r.
  - now rewrite IH.
Qed.

Lemma keys_fold (l m : list (string * attrs)) :
  map fst (fold_left (fun m ka => upsert_s m (fst ka) (snd ka)) l m)
  = map fst m
    ++ filter (fun k => negb (has k (map fst m))) (first_appearances (map fst l)).
Proof.
  revert m. induction l as [|[k a] l IH]; intros m.
  - simpl. now rewrite app_nil_r.
  - cbn [fold_left fst snd map first_appearances filter].
    rewrite IH, keys_upsert_s, filter_twice.
    destruct (has k (map fst m)) eqn:Hk; cbn [negb].
    + rewrite app_nil_r. f_equal. apply filter_ext. intros x.
      destruct (x =? k)%string eqn:Hx; [|reflexivity].
      apply String.eqb_eq in Hx. subst x. now rewrite Hk.
    + rewrite <- app_assoc. cbn [app]. do 2 f_equal. apply filter_ext. intros x.
      unfold has. rewrite existsb_app. cbn [existsb].
      rewrite orb_false_r, negb_orb, (String.eqb_sym k x). apply andb_comm.
Qed.

Lemma build_keys (l : list (string * attrs)) :
  map fst (build l) = first_appearances (map fst l).
Proof.
  unfold build. rewrite keys_fold. cbn [map app].
  rewrite <- (filter_ext (fun _ => true)) by reflexivity.
  induction (first_appearances (map fst l)) as [|x r IH]; simpl; congruence.
Qed.

Lemma assoc_upsert_s (m : list (string * attrs)) (k k0 : string) (a : attrs) :
  assoc (upsert_s m k a) k0 = if (k =? k0)%string then Some a else assoc m k0.
Proof.
  induction m as [|[k' a'] m IH]; simpl; [reflexivity|].
  destruct (k' =? k)%string eqn:Hk; simpl.
  - apply String.eqb_eq in Hk. subst k'. destruct (k =? k0)%string; reflexivity.
  - rewrite IH. destruct (k' =? k0)%string eqn:H0; [|reflexivity].
    destruct (k =? k0)%string eqn:H1; [|reflexivity].
    apply String.eqb_eq in H0, H1. subst. now rewrite String.eqb_refl in Hk.
Qed.

Lemma assoc_fold (l m : list (string * attrs)) (k : string) :
  assoc (fold_left (fun m ka => upsert_s m (fst ka) (snd ka)) l m) k
  = match last_binding l k with
    | Some a => Some a
    | None => assoc m k
    end.
Proof.
  revert m. induction l as [|[k' a] l IH]; intros m; [reflexivity|].
  cbn [fold_left fst snd last_binding]. rewrite IH, assoc_upsert_s.
  destruct (last_binding l k); [reflexivity|].
  destruct (k' =? k)%string; reflexivity.
Qed.

Lemma build_assoc (l : list (string * attrs)) (k : string) :
  assoc (build l) k = last_binding l k.
Proof.
  unfold build. rewrite assoc_fold. destruct (last_binding l k); reflexivity.
Qed.

Lemma in_upsert_s (m : list (string * attrs)) (k : string) (a : attrs) x :
  In x (upsert_s m k a) -> In x m \/ x = (k, a).
Proof.
  induction m as [|[k' a'] m IH]; simpl.
  - intros [H|[]]; auto.
  - destruct (k' =? k)%string eqn:Hk; simpl.
    + apply String.eqb_eq in Hk. subst k'. intros [H|H]; auto.
    + intros [H|H]; auto. destruct (IH H); auto.
Qed.

Lemma in_fold (l m : list (string * attrs)) x :
  In x (fold_left (fun m ka => upsert_s m (fst ka) (snd ka)) l m) ->
  In x m \/ In x l.
Proof.
  revert m. induction l as [|[k a] l IH]; intros m; simpl; auto.
  intros H. destruct (IH _ H) as [H'|H']; auto.
  destruct (in_upsert_s _ _ _ _ H') as [H''|H'']; auto.
Qed.

Lemma build_in (l : list (string * attrs)) x : In x (build l) -> In x l.
Proof. intros H. destruct (in_fold l [] x H) as [[]|H']; exact H'. Qed.

Lemma has_false (k : string) (l : list string) : ~ In k l -> has k l = false.
Proof.
  intros H. unfold has. destruct (existsb _ l) eqn:He; [|reflexivity].
  apply existsb_exists in He. destruct He as [x [Hx Hk]].
  apply String.eqb_eq in Hk. subst x. contradiction.
Qed.

Lemma upsert_s_fresh (m : list (string * attrs)) (k : string) (a : attrs) :
  ~ In k (map fst m) -> upsert_s m k a = m ++ [(k, a)].
Proof.
  induction m as [|[k' a'] m IH]; simpl; [reflexivity|].
  intros H. destruct (k' =? k)%string eqn:Hk.
  - apply String.eqb_eq in Hk. tauto.
  - rewrite IH; tauto.
Qed.

Lemma fold_distinct (l m : list (string * attrs)) :
  NoDup (map fst m ++ map fst l) ->
  fold_left (fun m ka => upsert_s m (fst ka) (snd ka)) l m = m ++ l.
Proof.
  revert m. induction l as [|[k a] l IH]; intros m H.
  - simpl. now rewrite app_nil_r.
  - cbn [fold_left fst snd]. cbn [map fst] in H.
    rewrite upsert_s_fresh.
    + rewrite IH.
      * now rewrite <- app_assoc.
      * rewrite map_app. cbn [map fst]. rewrite <- app_assoc. exact H.
    + apply NoDup_remove_2 in H. intros Hin. apply H. apply in_or_app. auto.
Qed.

Lemma build_distinct (l : list (string * attrs)) :
  NoDup (map fst l) -> build l = l.
Proof. intros H. unfold build. now rewrite fold_distinct. Qed.

End TypedSentences.

(** ** The two branches of [tik_to_json] on arbitrary input *)

Section Branches.

Local Open Scope nat_scope.
Local Open Scope list_scope.

Ltac case_matches :=
  repeat match goal with
         | |- context [match ?x with _ => _ end] => destruct x eqn:?
         end.

Lemma getitem_raises (v k : pyval) (e : exn) :
  getitem v k = Raise e -> e = IndexError \/ e = KeyError \/ e = TypeError.
Proof.
  unfold getitem, seq_getitem, str_getitem.
  case_matches; intros H; inversion H; auto.
Qed.

Lemma scalar_body_raises (t : pyval) (e : exn) :
  scalar_body t = Raise e -> e = IndexError \/ e = KeyError \/ e = TypeError.
Proof.
  unfold scalar_body, bind.
  case_matches; intros H; try discriminate H;
    inversion H; subst; eauto using getitem_raises.
Qed.

Lemma scalar_step_raises (t : pyval) (e : exn) :
  scalar_step t = Raise e -> e = TypeError /\ scalar_body t = Raise TypeError.
Proof.
  unfold scalar_step. destruct (scalar_body t) as [o|e'] eqn:Hb; [discriminate|].
  destruct (scalar_body_raises t e' Hb) as [-> | [-> | ->]];
    intros H; inversion H; auto.
Qed.

Lemma mapping_add_raises (m : list (pyval * pyval)) (d : pyval) (e : exn) :
  mapping_add m d = Raise e -> mapping_error e.
Proof.
  unfold mapping_add, mapping_error, bind.
  destruct (keys d) as [ks|e'] eqn:Hk.
  - destruct (contains ks (PStr ".id")); [|discriminate].
    destruct (getitem d (PStr ".id")) as [i|e'] eqn:Hg.
    + destruct (slice_from_1 i) as [k|e'] eqn:Hs.
      * unfold dict_setitem. destruct (hashable k); [discriminate|].
        intros H. inversion H. auto.
      * intros H. inversion H. subst.
        destruct i; inversion Hs; auto.
    + intros H. inversion H. subst.
      destruct (getitem_raises _ _ _ Hg) as [-> | [-> | ->]]; auto.
  - intros H. inversion H. subst. destruct d; inversion Hk; auto.
Qed.

Lemma mapM_getitem_raises (k : pyval) (l : list pyval) (e : exn) :
  mapM (fun x => getitem x k) l = Raise e -> mapping_error e.
Proof.
  induction l as [|x l IH]; simpl; [discriminate|].
  unfold bind. destruct (getitem x k) eqn:Hg.
  - destruct (mapM _ l); [discriminate | exact IH].
  - intros H. inversion H. subst.
    destruct (getitem_raises _ _ _ Hg) as [-> | [-> | ->]]; unfold mapping_error; auto.
Qed.

Lemma foldM_mapping_add_raises (l : list pyval) (m : list (pyval * pyval)) (e : exn) :
  foldM mapping_add l m = Raise e -> mapping_error e.
Proof.
  revert m. induction l as [|d l IH]; intros m; simpl; [discriminate|].
  unfold bind. destruct (mapping_add m d) eqn:Ha; [apply IH|].
  intros H. inversion H. subst. eapply mapping_add_raises, Ha.
Qed.

Lemma mapping_body_raises (t : pyval) (e : exn) :
  mapping_body t = Raise e -> mapping_error e.
Proof.
  unfold mapping_body, bind.
  destruct (iter t) as [xs|e'] eqn:Hi.
  - destruct (mapM _ xs) as [ds|e''] eqn:Hm.
    + destruct (foldM mapping_add ds []) eqn:Hf; [discriminate|].
      intros H. inversion H. subst. eapply foldM_mapping_add_raises, Hf.
    + intros H. inversion H. subst. eapply mapM_getitem_raises, Hm.
  - intros H. inversion H. subst. destruct t; try discriminate Hi;
      inversion Hi; unfold mapping_error; auto.
Qed.

Lemma seq_getitem_1 (x y : pyval) (xs : list pyval) :
  seq_getitem (x :: y :: xs) 1 = Ok y.
Proof.
  unfold seq_getitem, norm_index. cbn [Z.leb Z.compare].
  assert ((1 <? Z.of_nat (List.length (x :: y :: xs)))%Z = true) as ->.
  { apply Z.ltb_lt. cbn [List.length]. lia. }
  reflexivity.
Qed.

(** The list comprehension stops with [IndexError] at the first record
    that has no second component. *)
Lemma mapM_short_record (recs : list pyval) :
  Forall (fun r => seq_record r = true) recs ->
  Exists (fun r => short_record r = true) recs ->
  mapM (fun x => getitem x (PInt 1)) recs = Raise IndexError.
Proof.
  intros Hall Hex. induction Hall as [|r recs Hr Hall IH]; [inversion Hex|].
  cbn [mapM]. destruct (short_record r) eqn:Hs.
  - assert (getitem r (PInt 1) = Raise IndexError) as ->; [|reflexivity].
    destruct r as [| | |[|x [|y xs]]|[|x [|y xs]]|]; try discriminate Hs; reflexivity.
  - assert (exists v, getitem r (PInt 1) = Ok v) as [v ->].
    { destruct r as [| | |[|x [|y xs]]|[|x [|y xs]]|];
        try discriminate Hr; try discriminate Hs; eexists;
        cbn [getitem]; apply seq_getitem_1. }
    cbn [bind]. rewrite IH; [reflexivity|].
    inversion Hex; subst; [congruence | assumption].
Qed.

End Branches.

(** ** Claims about [tik_to_json] *)

Section NormalisationClaims.

Local Open Scope nat_scope.
Local Open Scope list_scope.

(** C4 (as amended).  When the first record of the sentence is tagged
    [!done] and its attribute record is a dictionary with the key [ret],
    [tik_to_json] returns the value bound to [ret].  When the sentence has
    no first record ([IndexError] or [KeyError] on [tikoutput[0]]), when
    its first record is a list or tuple with fewer than two components, or
    when the first record is tagged [!done] and its attribute dictionary
    has no [ret], no error is raised by the first step and the result is
    that of the mapping step. *)
Theorem tik_to_json_scalar_branch (t : pyval) :
  (forall r d v,
      getitem t (PInt 0) = Ok r ->
      getitem r (PInt 0) = Ok (PStr "!done") ->
      getitem r (PInt 1) = Ok (PDict d) ->
      dict_get d (PStr "ret") = Some v ->
      tik_to_json t = Ok v)
  /\ (getitem t (PInt 0) = Raise IndexError \/ getitem t (PInt 0) = Raise KeyError ->
      scalar_step t = Ok FellThrough /\ tik_to_json t = mapping_step t)
  /\ (forall r,
      getitem t (PInt 0) = Ok r ->
      short_record r = true ->
      scalar_step t = Ok FellThrough /\ tik_to_json t = mapping_step t)
  /\ (forall r d,
      getitem t (PInt 0) = Ok r ->
      getitem r (PInt 0) = Ok (PStr "!done") ->
      getitem r (PInt 1) = Ok (PDict d) ->
      dict_get d (PStr "ret") = None ->
      scalar_step t = Ok FellThrough /\ tik_to_json t = mapping_step t).
Proof.
  assert (Hfall : scalar_step t = Ok FellThrough ->
                  scalar_step t = Ok FellThrough /\ tik_to_json t = mapping_step t).
  { intros H. split; [exact H|]. unfold tik_to_json. now rewrite H. }
  split; [|split; [|split]].
  - intros r d v H0 Htag H1 Hret.
    unfold tik_to_json, scalar_step, scalar_body.
    rewrite H0. cbn [bind]. rewrite Htag.
    cbn [bind eq_str]. rewrite String.eqb_refl, H1. cbn [bind getitem hashable].
    rewrite Hret. reflexivity.
  - intros H. apply Hfall. unfold scalar_step, scalar_body.
    destruct H as [-> | ->]; reflexivity.
  - intros r H Hs. apply Hfall. unfold scalar_step, scalar_body.
    rewrite H. cbn [bind].
    destruct r as [| | |[|x [|y xs]]|[|x [|y xs]]|]; try discriminate Hs;
      try reflexivity;
      cbn; destruct (eq_str x "!done"); reflexivity.
  - intros r d H0 Htag H1 Hret. apply Hfall. unfold scalar_step, scalar_body.
    rewrite H0. cbn [bind]. rewrite Htag. cbn [bind eq_str].
    rewrite String.eqb_refl, H1. cbn [bind getitem hashable]. rewrite Hret.
    reflexivity.
Qed.

Lemma tik_to_json_scalar_branch_witness :
  tik_to_json (PList [PTuple [PStr "!done"; PDict [(PStr "ret", PStr "42")]]])
  = Ok (PStr "42")
  /\ tik_to_json (PList []) = mapping_step (PList [])
  /\ tik_to_json (PList [PTuple [PStr "!done"]])
     = mapping_step (PList [PTuple [PStr "!done"]])
  /\ tik_to_json (PList [PTuple [PStr "!done"; PDict []]])
     = mapping_step (PList [PTuple [PStr "!done"; PDict []]]).
Proof.
  split; [|split; [|split]].
  - apply (proj1 (tik_to_json_scalar_branch _)
             (PTuple [PStr "!done"; PDict [(PStr "ret", PStr "42")]])
             [(PStr "ret", PStr "42")]); reflexivity.
  - apply (proj1 (proj2 (tik_to_json_scalar_branch _))). left. reflexivity.
  - apply (proj1 (proj2 (proj2 (tik_to_json_scalar_branch _)))
             (PTuple [PStr "!done"])); reflexivity.
  - apply (proj2 (proj2 (proj2 (tik_to_json_scalar_branch _)))
             (PTuple [PStr "!done"; PDict []]) []); reflexivity.
Defined.

(** C4, as stated, fails: a first record that cannot be subscripted makes
    the first step raise [TypeError], which leaves the function instead of
    falling through to the mapping step. *)
Lemma tik_to_json_scalar_branch_counterexample :
  scalar_step (PList [PInt 5]) = Raise TypeError
  /\ tik_to_json (PList [PInt 5]) = Raise TypeError
  /\ tik_to_json (PList [PInt 5]) <> mapping_step (PList [PInt 5]).
Proof. split; [reflexivity | split; [reflexivity | discriminate]]. Qed.

(** C5, as stated, fails: two records carry an [.id], the mapping has one
    entry. *)
Lemma tik_to_json_mapping_counterexample :
  tik_to_json (py_sentence twice)
  = Ok (py_mapping [("1", [(".id", "*1"); ("name", "eth1")])])
  /\ List.length (keyed twice) = 2
  /\ forall m, tik_to_json (py_sentence twice) = Ok (py_mapping m) ->
               List.length m <> List.length (keyed twice).
Proof.
  split; [reflexivity | split; [reflexivity|]].
  intros m H. assert (Hl : List.length (py_entries m) = 1) by (now inversion H).
  unfold py_entries in Hl. rewrite length_map in Hl. rewrite Hl. discriminate.
Qed.

(** C5 (as amended).  For every well-typed sentence not answered by the
    scalar branch, [tik_to_json] returns a mapping with exactly one entry
    per distinct key among the records that have an [.id], the key being
    the [.id] without its first character, in order of first appearance;
    every entry is valued by the full attribute record of a record with
    that key; records without [.id] contribute nothing; and when the keys
    are pairwise distinct there is exactly one entry per such record, in
    sentence order. *)
Theorem tik_to_json_mapping (s : sentence) :
  scalar_hit s = false ->
  exists m,
    tik_to_json (py_sentence s) = Ok (py_mapping m)
    /\ map fst m = first_appearances (map fst (keyed s))
    /\ (forall k a, In (k, a) m ->
                    In (k, a) (keyed s)
                    /\ exists tag, In (tag, a) s /\ id_key a = Some k)
    /\ (forall tag a, In (tag, a) s -> id_key a = None ->
                      forall k, ~ In (k, a) m)
    /\ (NoDup (map fst (keyed s)) -> m = keyed s).
Proof.
  intros Hs. exists (build (keyed s)).
  assert (Hkeyed : forall k a, In (k, a) (keyed s) ->
                               exists tag, In (tag, a) s /\ id_key a = Some k).
  { clear Hs. induction s as [|[tag a'] s IH]; intros k a; simpl; [tauto|].
    destruct (id_key a') as [k'|] eqn:Hid.
    - intros [H|H].
      + inversion H. subst. exists tag. auto.
      + destruct (IH _ _ H) as [tag' [? ?]]. exists tag'. auto.
    - intros H. destruct (IH _ _ H) as [tag' [? ?]]. exists tag'. auto. }
  split; [now apply tik_to_json_typed|].
  split; [apply build_keys|].
  split; [|split].
  - intros k a H. apply build_in in H. split; [exact H | now apply Hkeyed].
  - intros tag a _ Hnone k H. apply build_in in H.
    destruct (Hkeyed _ _ H) as [_ [_ Hk]]. congruence.
  - apply build_distinct.
Qed.

Lemma tik_to_json_mapping_witness :
  exists m,
    tik_to_json (py_sentence twice) = Ok (py_mapping m)
    /\ map fst m = ["1"%string].
Proof.
  destruct (tik_to_json_mapping twice eq_refl) as [m [H1 [H2 _]]].
  exists m. split; [exact H1 | exact H2].
Defined.

(** C10.  For every well-typed sentence not answered by the scalar branch,
    the mapping binds each key to the attribute record of the last record
    whose [.id] strips to it, and lists each key at the place of its first
    appearance. *)
Theorem tik_to_json_last_wins (s : sentence) :
  scalar_hit s = false ->
  exists m,
    tik_to_json (py_sentence s) = Ok (py_mapping m)
    /\ (forall k, assoc m k = last_binding (keyed s) k)
    /\ map fst m = first_appearances (map fst (keyed s)).
Proof.
  intros Hs. exists (build (keyed s)).
  split; [now apply tik_to_json_typed|].
  split; [intros k; apply build_assoc | apply build_keys].
Qed.

Lemma tik_to_json_last_wins_witness :
  exists m,
    tik_to_json (py_sentence twice) = Ok (py_mapping m)
    /\ assoc m "1" = Some [(".id", "*1"); ("name", "eth1")]
    /\ map fst m = ["1"%string].
Proof.
  destruct (tik_to_json_last_wins twice eq_refl) as [m [H1 [H2 H3]]].
  exists m. split; [exact H1 | split; [exact (H2 "1"%string) | exact H3]].
Defined.

(** C6, as stated, fails: a record that is a dictionary without the key
    [1] makes the mapping step raise [KeyError], which is not converted. *)
Lemma tik_to_json_errors_counterexample :
  scalar_step (PList [PDict []]) = Ok FellThrough
  /\ mapping_body (PList [PDict []]) = Raise KeyError
  /\ tik_to_json (PList [PDict []]) = Raise KeyError.
Proof. split; [reflexivity | split; reflexivity]. Qed.

(** C6 (as amended).  When the first step falls through and the mapping
    step raises [TypeError] or [IndexError], [tik_to_json] fails with
    [ClientError] carrying "unable to convert api output to json" and that
    exception as its cause; this happens in particular for a list or tuple
    of list or tuple records one of which has fewer than two components.
    The only other exceptions that leave [tik_to_json] are a [TypeError]
    raised by the first step and a [KeyError] or [AttributeError] raised by
    the mapping step. *)
Theorem tik_to_json_errors (t : pyval) :
  (forall c,
      c = TypeError \/ c = IndexError ->
      scalar_step t = Ok FellThrough ->
      mapping_body t = Raise c ->
      tik_to_json t = Raise (ClientError json_msg (Some c)))
  /\ (forall recs,
      t = PList recs \/ t = PTuple recs ->
      Forall (fun r => seq_record r = true) recs ->
      Exists (fun r => short_record r = true) recs ->
      scalar_step t = Ok FellThrough ->
      tik_to_json t = Raise (ClientError json_msg (Some IndexError)))
  /\ (forall e,
      tik_to_json t = Raise e ->
      (exists c, (c = TypeError \/ c = IndexError)
                 /\ e = ClientError json_msg (Some c)
                 /\ scalar_step t = Ok FellThrough
                 /\ mapping_body t = Raise c)
      \/ (e = TypeError /\ scalar_body t = Raise TypeError)
      \/ ((e = KeyError \/ e = AttributeError)
          /\ scalar_step t = Ok FellThrough
          /\ mapping_body t = Raise e)).
Proof.
  assert (H1 : forall c,
             c = TypeError \/ c = IndexError ->
             scalar_step t = Ok FellThrough ->
             mapping_body t = Raise c ->
             tik_to_json t = Raise (ClientError json_msg (Some c))).
  { intros c Hc Hs Hm. unfold tik_to_json, mapping_step. rewrite Hs, Hm.
    destruct Hc as [-> | ->]; reflexivity. }
  split; [exact H1 | split].
  - intros recs Ht Hall Hex Hs. apply H1; auto.
    unfold mapping_body.
    assert (iter t = Ok recs) as -> by (destruct Ht as [-> | ->]; reflexivity).
    cbn [bind]. now rewrite mapM_short_record.
  - intros e. unfold tik_to_json.
    destruct (scalar_step t) as [[v|]|e'] eqn:Hs.
    + discriminate.
    + unfold mapping_step.
      destruct (mapping_body t) as [v|e'] eqn:Hm; [discriminate|].
      destruct (mapping_body_raises t e' Hm) as [-> | [-> | [-> | ->]]];
        intros H; inversion H; subst.
      * left. exists IndexError. auto.
      * right. right. auto.
      * left. exists TypeError. auto.
      * right. right. auto.
    + intros H. inversion H. subst. right. left.
      now apply scalar_step_raises.
Qed.

Lemma tik_to_json_errors_witness :
  tik_to_json (PList [PTuple [PStr "!re"; PDict []]; PTuple [PStr "!re"]])
  = Raise (ClientError json_msg (Some IndexError))
  /\ tik_to_json (PList [PTuple [PStr "!re"; PDict []]; PInt 5])
     = Raise (ClientError json_msg (Some TypeError)).
Proof.
  split.
  - apply (proj1 (proj2 (tik_to_json_errors _))
             [PTuple [PStr "!re"; PDict []]; PTuple [PStr "!re"]]).
    + left. reflexivity.
    + repeat constructor.
    + right. left. reflexivity.
    + reflexivity.
  - apply (proj1 (tik_to_json_errors _) TypeError).
    + left. reflexivity.
    + reflexivity.
    + reflexivity.
Defined.

End NormalisationClaims.

(** ** The connection loop *)

Section ConnectLoop.

Local Open Scope list_scope.

Variable timeOut : pyval.

Lemma prepend_nil {A} (x : result A * session * list event) : prepend [] x = x.
Proof. destruct x as [[r s] tr]. reflexivity. Qed.

Lemma prepend_prepend {A} (t1 t2 : list event) (x : result A * session * list event) :
  prepend t1 (prepend t2 x) = prepend (t1 ++ t2) x.
Proof. destruct x as [[r s] tr]. simpl. now rewrite app_assoc. Qed.

(** One round of the loop, by the outcome of its three calls. *)
Lemma connect_loop_cons (c : candidate) (rest : list candidate) (s : session) :
  connect_loop timeOut (c :: rest) s
  = let i := info c in
    let ev1 := EvSocket (family i) (socktype i) (proto i) in
    let ev2 := EvSetTimeout (sock_of c) timeOut in
    let ev3 := EvConnect (sock_of c) (sockaddr i) in
    let next := connect_loop timeOut rest (set__base_sock None s) in
    let opened := set__base_sock (Some (sock_of c)) s in
    match on_socket c with
    | Some e =>
        if is_socket_error e then prepend [ev1] next else (Raise e, s, [ev1])
    | None =>
        match on_settimeout c with
        | Some e =>
            if is_socket_error e then prepend [ev1; ev2] next
            else (Raise e, opened, [ev1; ev2])
        | None =>
            match on_connect c with
            | Some e =>
                if is_socket_error e
                then prepend [ev1; ev2; ev3; EvClose (sock_of c)] next
                else (Raise e, opened, [ev1; ev2; ev3])
            | None => (Ok tt, opened, [ev1; ev2; ev3])
            end
        end
    end.
Proof.
  cbn [connect_loop].
  unfold mbind, try_except, call, emit, modify, get, ret, raise, sock_of, prepend.
  cbv zeta.
  destruct (on_socket c) as [e1|]; cbn.
  { destruct (is_socket_error e1); [|reflexivity]. cbn.
    destruct (connect_loop timeOut rest (set__base_sock None s)) as [[r s'] tr].
    reflexivity. }
  destruct (on_settimeout c) as [e2|]; cbn.
  { destruct (is_socket_error e2); [|reflexivity]. cbn.
    change (set__base_sock None (set__base_sock (Some (Socket (family (info c))
              (socktype (info c)) (proto (info c)))) s))
      with (set__base_sock None s).
    destruct (connect_loop timeOut rest (set__base_sock None s)) as [[r s'] tr].
    reflexivity. }
  destruct (on_connect c) as [e3|]; cbn; [|reflexivity].
  destruct (is_socket_error e3); [|reflexivity]. cbn.
  change (set__base_sock None (set__base_sock (Some (Socket (family (info c))
            (socktype (info c)) (proto (info c)))) s))
    with (set__base_sock None s).
  destruct (connect_loop timeOut rest (set__base_sock None s)) as [[r s'] tr].
  reflexivity.
Qed.

Lemma connect_loop_failed (c : candidate) (rest : list candidate) (s : session) :
  candidate_fails c = true ->
  connect_loop timeOut (c :: rest) s
  = prepend (attempt timeOut c) (connect_loop timeOut rest (set__base_sock None s)).
Proof.
  intros H. rewrite connect_loop_cons. cbv zeta. unfold candidate_fails in H.
  unfold attempt.
  destruct (on_socket c) as [e1|]; [now rewrite H|].
  destruct (on_settimeout c) as [e2|]; [now rewrite H|].
  destruct (on_connect c) as [e3|]; [now rewrite H | discriminate H].
Qed.

Lemma connect_loop_connected (c : candidate) (rest : list candidate) (s : session) :
  candidate_connects c = true ->
  connect_loop timeOut (c :: rest) s
  = (Ok tt, set__base_sock (Some (sock_of c)) s, attempt timeOut c).
Proof.
  intros H. rewrite connect_loop_cons. cbv zeta. unfold candidate_connects in H.
  unfold attempt.
  destruct (on_socket c); [discriminate H|].
  destruct (on_settimeout c); [discriminate H|].
  destruct (on_connect c); [discriminate H | reflexivity].
Qed.

Lemma connect_loop_all_failed (pre rest : list candidate) (s : session) :
  forallb candidate_fails pre = true ->
  connect_loop timeOut (pre ++ rest) (set__base_sock None s)
  = prepend (flat_map (attempt timeOut) pre)
            (connect_loop timeOut rest (set__base_sock None s)).
Proof.
  induction pre as [|c pre IH]; intros H.
  - simpl. now rewrite prepend_nil.
  - cbn [forallb] in H. apply andb_true_iff in H. destruct H as [Hc Hpre].
    cbn [app flat_map]. rewrite connect_loop_failed by exact Hc.
    change (set__base_sock None (set__base_sock None s)) with (set__base_sock None s).
    rewrite IH by exact Hpre. now rewrite prepend_prepend.
Qed.

(** The loop with a failing prefix, from any state. *)
Lemma connect_loop_skip (pre rest : list candidate) (s : session) :
  forallb candidate_fails pre = true ->
  pre <> [] ->
  connect_loop timeOut (pre ++ rest) s
  = prepend (flat_map (attempt timeOut) pre)
            (connect_loop timeOut rest (set__base_sock None s)).
Proof.
  intros H Hne. destruct pre as [|c pre]; [contradiction|].
  cbn [forallb] in H. apply andb_true_iff in H. destruct H as [Hc Hpre].
  cbn [app flat_map]. rewrite connect_loop_failed by exact Hc.
  rewrite connect_loop_all_failed by exact Hpre. now rewrite prepend_prepend.
Qed.

(** The loop changes [_base_sock] only and makes transport calls only. *)
Lemma connect_loop_frame (cands : list candidate) (s : session) :
  let '(_, s', tr) := connect_loop timeOut cands s in
  s' = set__base_sock (_base_sock s') s /\ forallb socket_event tr = true.
Proof.
  revert s. induction cands as [|c rest IH]; intros s.
  - simpl. destruct s. split; reflexivity.
  - rewrite connect_loop_cons. cbv zeta.
    pose proof (IH (set__base_sock None s)) as Hn.
    destruct (connect_loop timeOut rest (set__base_sock None s)) as [[r s'] tr].
    destruct Hn as [Hs Ht].
    assert (Hs' : s' = set__base_sock (_base_sock s') s) by (rewrite Hs; reflexivity).
    destruct (on_socket c) as [e1|].
    { destruct (is_socket_error e1); simpl; [auto|]. destruct s. split; reflexivity. }
    destruct (on_settimeout c) as [e2|].
    { destruct (is_socket_error e2); simpl; auto. }
    destruct (on_connect c) as [e3|]; [|simpl; auto].
    destruct (is_socket_error e3); simpl; auto.
Qed.

End ConnectLoop.

(** ** Claims about the session *)

Section SessionClaims.

Local Open Scope list_scope.

(** C8.  For every integer outside 1..65535, 0 and 65536 included, the
    [port] setter raises the configuration error of the code,
    [ValueError('invalid port number specified')], makes no outside call
    and leaves the session, hence the stored port, as it was; for every
    integer inside 1..65535 it stores the value. *)
Theorem port_setter_range (s : session) (z : Z) :
  (z < 1 \/ 65535 < z ->
   set_port (PInt z) s
   = (Raise (ValueError port_msg
               (Some (ValueError
                        (NilZero.string_of_int (Z.to_int z)
                         ++ " is not a valid port number")%string None))),
      s, []))
  /\ (1 <= z <= 65535 ->
      set_port (PInt z) s = (Ok tt, set__port (PInt z) s, [])
      /\ _port (set__port (PInt z) s) = PInt z).
Proof.
  unfold set_port, try_except, mbind, lift, valid_port, int_lt, lt_int, bind.
  split.
  - intros H.
    destruct (0 <? z) eqn:H0.
    + assert ((z <? 65536) = false) as -> by (apply Z.ltb_ge; apply Z.ltb_lt in H0; lia).
      reflexivity.
    + reflexivity.
  - intros H.
    assert ((0 <? z) = true) as -> by (apply Z.ltb_lt; lia).
    assert ((z <? 65536) = true) as -> by (apply Z.ltb_lt; lia).
    split; reflexivity.
Qed.

Lemma port_setter_range_witness :
  set_port (PInt 0) (init PlainClient)
  = (Raise (ValueError port_msg
              (Some (ValueError "0 is not a valid port number" None))),
     init PlainClient, [])
  /\ set_port (PInt 65536) (set__port (PInt 8728) (init PlainClient))
     = (Raise (ValueError port_msg
                 (Some (ValueError "65536 is not a valid port number" None))),
        set__port (PInt 8728) (init PlainClient), [])
  /\ set_port (PInt 8728) (init PlainClient)
     = (Ok tt, set__port (PInt 8728) (init PlainClient), []).
Proof.
  split; [|split].
  - apply (proj1 (port_setter_range _ 0)). lia.
  - apply (proj1 (port_setter_range _ 65536)). lia.
  - apply (proj2 (port_setter_range _ 8728)). lia.
Defined.

Lemma all_str_none (l : list pyval) (x : pyval) :
  In x l -> (forall str, x <> PStr str) -> all_str l = None.
Proof.
  intros Hin Hx. induction l as [|y l IH]; [destruct Hin|].
  destruct Hin as [-> | Hin].
  - destruct x; try reflexivity. now destruct (Hx s).
  - simpl. destruct y; try reflexivity. now rewrite (IH Hin).
Qed.

(** C7.  When [words] is not a list, or is a list with an element that is
    not a string, [talk] raises the invalid-argument error of the code,
    [ValueError('words needs to be a list of strings')], without any
    outside call: the protocol engine's [talk] is not invoked, and the
    session is unchanged. *)
Theorem talk_rejects_words (E : env) (s : session) (words : pyval) :
  (forall l, words <> PList l)
  \/ (exists l x, words = PList l /\ In x l /\ forall str, x <> PStr str) ->
  talk E words s = (Raise (ValueError words_msg None), s, [])
  /\ forall api ws, ~ In (EvApiTalk api ws) (snd (talk E words s)).
Proof.
  intros H.
  assert (Hn : list_of_str words = None).
  { destruct H as [H | [l [x [-> [Hin Hx]]]]].
    - destruct words; try reflexivity. now destruct (H l).
    - simpl. eapply all_str_none; eauto. }
  unfold talk. rewrite Hn. split; [reflexivity|]. intros api ws [].
Qed.

Lemma talk_rejects_words_witness :
  talk lab (PStr "/system/identity/print") (init PlainClient)
  = (Raise (ValueError words_msg None), init PlainClient, [])
  /\ talk lab (PList [PStr "/ip/address/print"; PInt 1]) (init PlainClient)
     = (Raise (ValueError words_msg None), init PlainClient, []).
Proof.
  split.
  - apply (talk_rejects_words lab (init PlainClient) (PStr "/system/identity/print")).
    left. intros l. discriminate.
  - apply (talk_rejects_words lab (init PlainClient)
             (PList [PStr "/ip/address/print"; PInt 1])).
    right. exists [PStr "/ip/address/print"; PInt 1], (PInt 1).
    split; [reflexivity | split; [right; left; reflexivity | intros str; discriminate]].
Defined.

(** The outcome of [_connect_socket] once the resolver has answered. *)
Lemma connect_socket_resolved (E : env) (timeOut : pyval) (s : session)
      (cands : list candidate) :
  truthy (_address s) = true ->
  truthy (_port s) = true ->
  getaddrinfo E (_address s) (_port s) = Ok cands ->
  _connect_socket E timeOut s
  = prepend [EvGetaddrinfo (_address s) (_port s)]
      (let '(r, s', tr) := connect_loop timeOut cands s in
       match r with
       | Ok _ =>
           match _base_sock s' with
           | None => (Raise (ClientError socket_msg None), s', tr)
           | Some _ => (Ok tt, s', tr)
           end
       | Raise e => (Raise e, s', tr)
       end).
Proof.
  intros Ha Hp Hr.
  unfold _connect_socket, mbind, get, emit, lift, raise, ret, prepend.
  rewrite Ha, Hp, Hr. cbn [negb].
  destruct (connect_loop timeOut cands s) as [[[[]|e] s'] tr]; [|reflexivity].
  destruct (_base_sock s'); cbn; now rewrite ?app_nil_r.
Qed.

(** C9.  Once the resolver has answered, the candidates are tried in the
    order it returned them.  When the candidates before [c] all fail and
    [c] connects, the calls made are those of the failed attempts, in
    order, then those for [c], and none for the candidates after [c];
    [_connect_socket] returns with the socket of [c] as base socket.  When
    every candidate fails, [_connect_socket] raises the connection error of
    the code, [ClientError('could not open socket')], after the attempts on
    all of them in order, and the session holds no base socket and is
    otherwise as before.  (The resolver never answers with no candidate;
    for the empty answer the same holds on a session without base
    socket.) *)
Theorem connect_socket_candidates (E : env) (timeOut : pyval) (s : session)
        (cands : list candidate) :
  truthy (_address s) = true ->
  truthy (_port s) = true ->
  getaddrinfo E (_address s) (_port s) = Ok cands ->
  (forall pre c post,
      cands = pre ++ c :: post ->
      forallb candidate_fails pre = true ->
      candidate_connects c = true ->
      _connect_socket E timeOut s
      = (Ok tt,
         set__base_sock (Some (sock_of c)) s,
         EvGetaddrinfo (_address s) (_port s)
         :: flat_map (attempt timeOut) pre ++ attempt timeOut c))
  /\ (forallb candidate_fails cands = true ->
      cands <> [] \/ _base_sock s = None ->
      _connect_socket E timeOut s
      = (Raise (ClientError socket_msg None),
         set__base_sock None s,
         EvGetaddrinfo (_address s) (_port s) :: flat_map (attempt timeOut) cands)).
Proof.
  intros Ha Hp Hr. rewrite (connect_socket_resolved E timeOut s cands Ha Hp Hr).
  split.
  - intros pre c post -> Hpre Hc.
    destruct pre as [|c0 pre].
    + cbn [app flat_map]. rewrite connect_loop_connected by exact Hc. reflexivity.
    + rewrite connect_loop_skip by (exact Hpre || discriminate).
      rewrite connect_loop_connected by exact Hc. reflexivity.
  - intros Hall Hne.
    destruct cands as [|c0 cands].
    + destruct Hne as [Hne | Hnone]; [contradiction|].
      cbn. rewrite Hnone. destruct s. cbn in Hnone. subst. reflexivity.
    + rewrite <- (app_nil_r (c0 :: cands)) at 1.
      rewrite connect_loop_skip by (exact Hall || discriminate).
      cbn. now rewrite app_nil_r.
Qed.

Lemma connect_socket_candidates_witness :
  _connect_socket
    (world "posix" "linux" [unsupported addr6; refused addr4; reachable addr4;
                            reachable addr6] None None (Ok (PList [])))
    (PInt 60) (router PlainClient true true)
  = (Ok tt,
     set__base_sock (Some (Socket 2 1 6)) (router PlainClient true true),
     [EvGetaddrinfo (PStr "router.example") (PInt 8729);
      EvSocket 10 1 6;
      EvSocket 2 1 6; EvSetTimeout (Socket 2 1 6) (PInt 60);
      EvConnect (Socket 2 1 6) (sockaddr addr4); EvClose (Socket 2 1 6);
      EvSocket 2 1 6; EvSetTimeout (Socket 2 1 6) (PInt 60);
      EvConnect (Socket 2 1 6) (sockaddr addr4)])
  /\ _connect_socket
       (world "posix" "linux" [unsupported addr6; refused addr4] None None
              (Ok (PList [])))
       (PInt 60) (router PlainClient true true)
     = (Raise (ClientError socket_msg None),
        set__base_sock None (router PlainClient true true),
        [EvGetaddrinfo (PStr "router.example") (PInt 8729);
         EvSocket 10 1 6;
         EvSocket 2 1 6; EvSetTimeout (Socket 2 1 6) (PInt 60);
         EvConnect (Socket 2 1 6) (sockaddr addr4); EvClose (Socket 2 1 6)]).
Proof.
  split.
  - apply (proj1 (connect_socket_candidates
                    (world "posix" "linux"
                           [unsupported addr6; refused addr4; reachable addr4;
                            reachable addr6] None None (Ok (PList [])))
                    (PInt 60) (router PlainClient true true) _
                    eq_refl eq_refl eq_refl)
             [unsupported addr6; refused addr4] (reachable addr4) [reachable addr6]);
      reflexivity.
  - apply (proj2 (connect_socket_candidates
                    (world "posix" "linux" [unsupported addr6; refused addr4]
                           None None (Ok (PList [])))
                    (PInt 60) (router PlainClient true true) _
                    eq_refl eq_refl eq_refl)).
    + reflexivity.
    + left. discriminate.
Defined.

(** [_connect_socket] changes [_base_sock] only and makes transport calls
    only. *)
Lemma connect_socket_frame (E : env) (timeOut : pyval) (s : session) :
  let '(_, s', tr) := _connect_socket E timeOut s in
  s' = set__base_sock (_base_sock s') s /\ forallb socket_event tr = true.
Proof.
  assert (Hid : s = set__base_sock (_base_sock s) s) by (destruct s; reflexivity).
  unfold _connect_socket, mbind, get, emit, lift, raise, ret.
  destruct (truthy (_address s)); cbn [negb]; [|split; [exact Hid | reflexivity]].
  destruct (truthy (_port s)); cbn [negb]; [|split; [exact Hid | reflexivity]].
  destruct (getaddrinfo E (_address s) (_port s)) as [cands|e];
    [|split; [exact Hid | reflexivity]].
  pose proof (connect_loop_frame timeOut cands s) as H.
  destruct (connect_loop timeOut cands s) as [[[[]|e] s'] tr];
    destruct H as [Hs Ht]; [|split; [exact Hs | exact Ht]].
  destruct (_base_sock s'); cbn [app]; rewrite app_nil_r;
    (split; [rewrite Hs; reflexivity | exact Ht]).
Qed.

(** [TikapySslClient._connect], by the outcome of its calls. *)
Lemma connect_ssl_outcome (E : env) (timeOut : pyval) (s : session) :
  _connect_ssl E timeOut s
  = let '(r, s1, tr1) := _connect_socket E timeOut s in
    match r with
    | Raise e => (Raise e, s1, tr1)
    | Ok _ =>
        prepend tr1
          match make_context E s1 with
          | Raise SSLError => (Raise (ClientError ssl_msg None), s1, [])
          | Raise e => (Raise e, s1, [])
          | Ok ctx =>
              match _base_sock s1 with
              | None => (Raise AttributeError, s1, [])
              | Some b =>
                  let ev := EvWrapSocket ctx b (_address s1) in
                  match wrap_socket E ctx b (_address s1) with
                  | None =>
                      (Ok tt, set__sock (Some (SSLSocket ctx b (_address s1))) s1, [ev])
                  | Some SSLError => (Raise (ClientError ssl_msg None), s1, [ev])
                  | Some e => (Raise e, s1, [ev])
                  end
              end
          end
    end.
Proof.
  unfold _connect_ssl, mbind at 1.
  destruct (_connect_socket E timeOut s) as [[[[]|e] s1] tr1]; [|reflexivity].
  unfold try_except, mbind, get, lift, call, emit, modify, raise, ret, prepend.
  destruct (make_context E s1) as [ctx|e]; [|destruct e; reflexivity].
  destruct (_base_sock s1) as [b|]; [|reflexivity].
  cbv zeta.
  destruct (wrap_socket E ctx b (_address s1)) as [e|]; [destruct e|]; reflexivity.
Qed.

Lemma make_context_frame (E : env) (s : session) (b : option sock) :
  make_context E (set__base_sock b s) = make_context E s.
Proof. reflexivity. Qed.

(** The context of the non-Windows branch and of the Windows branch. *)
Lemma make_context_value (E : env) (s : session) (ctx : ssl_context) :
  make_context E s = Ok ctx ->
  ctx = if on_windows E then
          mkContext (if verify_cert s then CERT_REQUIRED else CERT_OPTIONAL)
                    (verify_addr s) (Some "ADH:@SECLEVEL=0"%string)
        else mkContext CERT_OPTIONAL false (Some "ADH"%string).
Proof.
  unfold make_context, ctx_set_ciphers.
  destruct (on_windows E).
  - destruct (set_ciphers E "ADH:@SECLEVEL=0"); [discriminate|].
    intros H. inversion H. destruct (verify_cert s), (verify_addr s); reflexivity.
  - destruct (set_ciphers E "ADH"); [discriminate|].
    intros H. inversion H. reflexivity.
Qed.

(** C2, as stated, fails: on a Windows host, with the constructor's default
    flags, the context handed to the handshake still requires a valid
    certificate chain and checks the host name. *)
Lemma ssl_context_policy_counterexample :
  let w := world "nt" "win32" [reachable addr4] None None (Ok (PList [])) in
  let ctx := mkContext CERT_REQUIRED true (Some "ADH:@SECLEVEL=0"%string) in
  make_context w (router SslClient true true) = Ok ctx
  /\ In (EvWrapSocket ctx (Socket 2 1 6) (PStr "router.example"))
        (snd (_connect_ssl w (PInt 60) (router SslClient true true))).
Proof. split; [reflexivity | cbn; tauto]. Qed.

(** C2 (as amended).  Every context handed to the TLS handshake by the
    secure client requests an anonymous Diffie-Hellman cipher suite: "ADH"
    off Windows, "ADH:@SECLEVEL=0" on Windows.  Off Windows the verify mode
    is [CERT_OPTIONAL] and the host name check is off whatever
    [verify_cert] and [verify_addr] are.  On Windows the verify mode is
    lowered to [CERT_OPTIONAL] only when [verify_cert] is false, and the
    host name check is switched off only when [verify_addr] is false. *)
Theorem ssl_context_policy (E : env) (timeOut : pyval) (s : session) :
  forall ctx b h,
    In (EvWrapSocket ctx b h) (snd (_connect_ssl E timeOut s)) ->
    make_context E s = Ok ctx
    /\ ciphers ctx = Some (if on_windows E then "ADH:@SECLEVEL=0" else "ADH")%string
    /\ (on_windows E = false ->
        verify_mode ctx = CERT_OPTIONAL /\ check_hostname ctx = false)
    /\ (on_windows E = true ->
        verify_mode ctx = (if verify_cert s then CERT_REQUIRED else CERT_OPTIONAL)
        /\ check_hostname ctx = verify_addr s).
Proof.
  intros ctx b h Hin.
  assert (Hctx : make_context E s = Ok ctx).
  { rewrite connect_ssl_outcome in Hin.
    pose proof (connect_socket_frame E timeOut s) as Hf.
    destruct (_connect_socket E timeOut s) as [[r s1] tr1].
    destruct Hf as [Hs Ht].
    assert (Hno : ~ In (EvWrapSocket ctx b h) tr1).
    { intros Hi. rewrite forallb_forall in Ht. specialize (Ht _ Hi). discriminate Ht. }
    destruct r as [[]|e]; [|contradiction].
    rewrite Hs, make_context_frame in Hin.
    destruct (make_context E s) as [ctx'|e] eqn:Hc.
    - destruct (_base_sock (set__base_sock (_base_sock s1) s)) as [b'|];
        [|cbn in Hin; rewrite app_nil_r in Hin; contradiction].
      cbv zeta in Hin.
      assert (Hev : In (EvWrapSocket ctx b h)
                       (tr1 ++ [EvWrapSocket ctx' b'
                                  (_address (set__base_sock (_base_sock s1) s))])).
      { destruct (wrap_socket E ctx' b' _) as [e|]; [destruct e|]; exact Hin. }
      apply in_app_or in Hev. destruct Hev as [Hev | [Hev | []]]; [contradiction|].
      inversion Hev. reflexivity.
    - assert (Hev : In (EvWrapSocket ctx b h) (tr1 ++ [])) by (destruct e; exact Hin).
      rewrite app_nil_r in Hev. contradiction. }
  split; [exact Hctx|].
  apply make_context_value in Hctx. subst ctx.
  destruct (on_windows E); cbn; repeat split; congruence.
Qed.

Lemma ssl_context_policy_witness :
  let w := world "posix" "linux" [reachable addr4] None None (Ok (PList [])) in
  let ctx := mkContext CERT_OPTIONAL false (Some "ADH"%string) in
  make_context w (router SslClient true true) = Ok ctx
  /\ ciphers ctx = Some "ADH"%string.
Proof.
  cbv zeta.
  destruct (ssl_context_policy
              (world "posix" "linux" [reachable addr4] None None (Ok (PList [])))
              (PInt 60) (router SslClient true true)
              (mkContext CERT_OPTIONAL false (Some "ADH"%string))
              (Socket 2 1 6) (PStr "router.example"))
    as [H1 [H2 _]].
  - cbn. tauto.
  - split; [exact H1 | exact H2].
Defined.




(** [_connect] calls the transport and the TLS library only. *)
Lemma connect_trace (E : env) (timeOut : pyval) (s : session) (ev : event) :
  In ev (snd (_connect E timeOut s)) ->
  socket_event ev = true \/ exists ctx b h, ev = EvWrapSocket ctx b h.
Proof.
  unfold _connect, mbind at 1, get. cbn [app].
  pose proof (connect_socket_frame E timeOut s) as Hf.
  destruct (cls s).
  - unfold _connect_plain, mbind, get, modify.
    destruct (_connect_socket E timeOut s) as [[[[]|e] s1] tr1];
      destruct Hf as [_ Ht]; rewrite forallb_forall in Ht;
      cbn; rewrite ?app_nil_r; intros Hin; left; now apply Ht.
  - rewrite connect_ssl_outcome.
    destruct (_connect_socket E timeOut s) as [[[[]|e] s1] tr1];
      destruct Hf as [_ Ht]; rewrite forallb_forall in Ht;
      [|cbn; intros Hin; left; now apply Ht].
    assert (Hcases : forall r s2 tr2,
               (tr2 = [] \/ exists ctx b h, tr2 = [EvWrapSocket ctx b h]) ->
               In ev (snd (prepend (A:=unit) tr1 (r, s2, tr2))) ->
               socket_event ev = true \/ exists ctx b h, ev = EvWrapSocket ctx b h).
    { intros r s2 tr2 Htr Hin. cbn in Hin. apply in_app_or in Hin.
      destruct Hin as [Hin | Hin]; [left; now apply Ht|].
      destruct Htr as [-> | [ctx [b [h ->]]]]; [destruct Hin|].
      destruct Hin as [<- | []]. right. eauto. }
    destruct (make_context E s1) as [ctx|e]; [|destruct e; apply Hcases; auto].
    destruct (_base_sock s1) as [b|]; [|apply Hcases; auto].
    cbv zeta.
    destruct (wrap_socket E ctx b (_address s1)) as [e|]; [destruct e|];
      apply Hcases; right; eauto.
Qed.

(** [login], by the outcome of [_connect] and of the engine's login. *)
Lemma login_outcome (E : env) (user password : string) (timeOut : pyval)
      (allow : bool) (s : session) :
  login E user password timeOut allow s
  = let '(r, s1, tr1) := _connect E timeOut s in
    match r with
    | Raise e => (Raise e, s1, tr1)
    | Ok _ =>
        let api := ApiRos (_sock s1) in
        let flag := hasattr_getpeercert (_sock s1) || allow in
        (match api_login E api user password flag with
         | None => Ok tt
         | Some ApiError => Raise (ClientError "could not login" (Some ApiError))
         | Some ApiUnrecoverableError =>
             Raise (ClientError "could not login" (Some ApiUnrecoverableError))
         | Some e => Raise e
         end,
         set__api (Some api) s1,
         tr1 ++ [EvApiLogin api user password flag])
    end.
Proof.
  unfold login, mbind at 1.
  destruct (_connect E timeOut s) as [[[[]|e] s1] tr1]; [|reflexivity].
  unfold try_except, mbind, get, modify, call, emit, raise, ret. cbn.
  destruct (api_login E (ApiRos (_sock s1)) user password
                      (hasattr_getpeercert (_sock s1) || allow)) as [e|];
    [destruct e|]; reflexivity.
Qed.

(** C1.  Every login that [login] passes to the protocol engine carries
    [send_plain_password] equal to "the session's stream is a TLS stream,
    or [allow_insecure_auth_without_tls]": true exactly when one of the two
    holds, false when neither does; and whenever [_connect] succeeds,
    exactly one such login is passed, as the last call. *)
Theorem login_send_plain_password (E : env) (user password : string)
        (timeOut : pyval) (allow : bool) (s : session) :
  let '(_, s', tr) := login E user password timeOut allow s in
  (forall api u p flag,
      In (EvApiLogin api u p flag) tr ->
      flag = hasattr_getpeercert (_sock s') || allow
      /\ (flag = true <-> hasattr_getpeercert (_sock s') = true \/ allow = true)
      /\ (flag = false <-> hasattr_getpeercert (_sock s') = false /\ allow = false)
      /\ api = ApiRos (_sock s') /\ u = user /\ p = password)
  /\ (forall s1 tr1,
      _connect E timeOut s = (Ok tt, s1, tr1) ->
      _sock s' = _sock s1
      /\ tr = tr1 ++ [EvApiLogin (ApiRos (_sock s1)) user password
                                 (hasattr_getpeercert (_sock s1) || allow)]).
Proof.
  rewrite login_outcome.
  pose proof (connect_trace E timeOut s) as Htr.
  destruct (_connect E timeOut s) as [[r s1] tr1]. cbn [snd] in Htr.
  assert (Hno : forall api u p flag, ~ In (EvApiLogin api u p flag) tr1).
  { intros api u p flag Hin. destruct (Htr _ Hin) as [H | [ctx [b [h H]]]];
      discriminate H. }
  destruct r as [[]|e].
  - cbv zeta. split.
    + intros api u p flag Hin. apply in_app_or in Hin.
      destruct Hin as [Hin | [Hin | []]]; [now apply Hno in Hin|].
      inversion Hin. subst. cbn [_sock set__api].
      split; [reflexivity|].
      split; [apply orb_true_iff|].
      split; [apply orb_false_iff|].
      split; [reflexivity | split; reflexivity].
    + intros s1' tr1' H. inversion H. subst. split; reflexivity.
  - split.
    + intros api u p flag Hin. now apply Hno in Hin.
    + intros s1' tr1' H. discriminate H.
Qed.

Lemma login_send_plain_password_witness :
  let flag_of (c : client_class) (allow : bool) :=
    last (snd (login lab "admin" "secret" (PInt 60) allow (router c true true)))
         (EvClose (Socket 0 0 0)) in
  let tls :=
    SSLSocket (mkContext CERT_OPTIONAL false (Some "ADH"%string))
              (Socket 2 1 6) (PStr "router.example") in
  flag_of PlainClient false
  = EvApiLogin (ApiRos (Some (Socket 2 1 6))) "admin" "secret" false
  /\ flag_of PlainClient true
     = EvApiLogin (ApiRos (Some (Socket 2 1 6))) "admin" "secret" true
  /\ flag_of SslClient false = EvApiLogin (ApiRos (Some tls)) "admin" "secret" true
  /\ flag_of SslClient true = EvApiLogin (ApiRos (Some tls)) "admin" "secret" true.
Proof.
  cbv zeta.
  assert (H : forall c allow s1 tr1,
             _connect lab (PInt 60) (router c true true) = (Ok tt, s1, tr1) ->
             last (snd (login lab "admin" "secret" (PInt 60) allow (router c true true)))
                  (EvClose (Socket 0 0 0))
             = EvApiLogin (ApiRos (_sock s1)) "admin" "secret"
                          (hasattr_getpeercert (_sock s1) || allow)).
  { intros c allow s1 tr1 Hc.
    pose proof (login_send_plain_password lab "admin" "secret" (PInt 60) allow
                  (router c true true)) as Hl.
    destruct (login lab "admin" "secret" (PInt 60) allow (router c true true))
      as [[r s'] tr].
    destruct Hl as [_ Hl]. destruct (Hl s1 tr1 Hc) as [_ ->].
    cbn [snd]. apply last_last. }
  split; [|split; [|split]].
  - exact (H PlainClient false _ _ eq_refl).
  - exact (H PlainClient true _ _ eq_refl).
  - exact (H SslClient false _ _ eq_refl).
  - exact (H SslClient true _ _ eq_refl).
Defined.

End SessionClaims.

(** ** Further properties of the transport *)

Section Transport.

Local Open Scope list_scope.

(** X1.  With no address, or with no port, [_connect_socket] raises
    [ClientError('address has not been set')] (the same message in both
    cases) before the resolver is asked, and the session is unchanged. *)
Theorem connect_socket_unset (E : env) (timeOut : pyval) (s : session) :
  truthy (_address s) = false \/ truthy (_port s) = false ->
  _connect_socket E timeOut s
  = (Raise (ClientError "address has not been set" None), s, []).
Proof.
  intros H. unfold _connect_socket, mbind, get, raise.
  destruct (truthy (_address s)); cbn [negb]; [|reflexivity].
  destruct H as [H | ->]; [discriminate H | reflexivity].
Qed.

Lemma connect_socket_unset_witness :
  _connect_socket lab (PInt 60) (init PlainClient)
  = (Raise (ClientError "address has not been set" None), init PlainClient, [])
  /\ _connect_socket lab (PInt 60) (set_address (PStr "router.example") (init SslClient))
     = (Raise (ClientError "address has not been set" None),
        set_address (PStr "router.example") (init SslClient), []).
Proof.
  split.
  - apply connect_socket_unset. left. reflexivity.
  - apply connect_socket_unset. right. reflexivity.
Defined.

(** X2.  An exception raised by the resolver is not caught: it leaves
    [_connect_socket] as it is, after the resolver call alone, with the
    session unchanged. *)
Theorem connect_socket_resolver_error (E : env) (timeOut : pyval) (s : session)
        (e : exn) :
  truthy (_address s) = true ->
  truthy (_port s) = true ->
  getaddrinfo E (_address s) (_port s) = Raise e ->
  _connect_socket E timeOut s = (Raise e, s, [EvGetaddrinfo (_address s) (_port s)]).
Proof.
  intros Ha Hp Hr. unfold _connect_socket, mbind, get, emit, lift.
  rewrite Ha, Hp, Hr. reflexivity.
Qed.

Lemma connect_socket_resolver_error_witness :
  _connect_socket offline (PInt 60) (router PlainClient true true)
  = (Raise OSError, router PlainClient true true,
     [EvGetaddrinfo (PStr "router.example") (PInt 8729)]).
Proof.
  apply (connect_socket_resolver_error offline (PInt 60)
           (router PlainClient true true) OSError); reflexivity.
Defined.

Lemma connect_socket_success (E : env) (timeOut : pyval) (s s' : session)
      (tr : list event) :
  _connect_socket E timeOut s = (Ok tt, s', tr) ->
  exists b, _base_sock s' = Some b.
Proof.
  unfold _connect_socket, mbind, get, emit, lift, raise, ret.
  destruct (truthy (_address s)); cbn [negb]; [|discriminate].
  destruct (truthy (_port s)); cbn [negb]; [|discriminate].
  destruct (getaddrinfo E (_address s) (_port s)) as [cands|e]; [|discriminate].
  destruct (connect_loop timeOut cands s) as [[[[]|e] s1] tr1]; [|discriminate].
  destruct (_base_sock s1) as [b|] eqn:Hb; [|discriminate].
  intros H. inversion H. subst. eauto.
Qed.

(** X3.  Whatever [_connect_socket] does, it makes transport calls only and
    changes no attribute of the session but [_base_sock]; when it returns,
    [_base_sock] holds a socket. *)
Theorem connect_socket_effect (E : env) (timeOut : pyval) (s : session) :
  let '(r, s', tr) := _connect_socket E timeOut s in
  cls s' = cls s /\ _address s' = _address s /\ _port s' = _port s
  /\ _sock s' = _sock s /\ _api s' = _api s
  /\ verify_cert s' = verify_cert s /\ verify_addr s' = verify_addr s
  /\ forallb socket_event tr = true
  /\ (r = Ok tt -> exists b, _base_sock s' = Some b).
Proof.
  pose proof (connect_socket_frame E timeOut s) as Hf.
  pose proof (connect_socket_success E timeOut s) as Hs.
  destruct (_connect_socket E timeOut s) as [[r s'] tr].
  destruct Hf as [Heq Ht].
  repeat (split; [rewrite Heq; reflexivity|]).
  split; [exact Ht|].
  intros ->. now apply (Hs s' tr).
Qed.

(** One round of the loop at a candidate that raises something else than
    [socket.error]. *)
Lemma connect_loop_aborted (timeOut : pyval) (c : candidate)
      (rest : list candidate) (s : session) (e : exn) :
  candidate_aborts c = Some e ->
  connect_loop timeOut (c :: rest) s
  = (Raise e,
     match on_socket c with
     | Some _ => s
     | None => set__base_sock (Some (sock_of c)) s
     end,
     calls_until_raise timeOut c).
Proof.
  intros H. rewrite connect_loop_cons. cbv zeta.
  unfold candidate_aborts in H. unfold calls_until_raise.
  destruct (on_socket c) as [e1|].
  { destruct (is_socket_error e1); [discriminate H|]. now inversion H. }
  destruct (on_settimeout c) as [e2|].
  { destruct (is_socket_error e2); [discriminate H|]. now inversion H. }
  destruct (on_connect c) as [e3|]; [|discriminate H].
  destruct (is_socket_error e3); [discriminate H|]. now inversion H.
Qed.

(** X4.  Only [socket.error] is taken as the failure of a candidate.  When
    the candidates before [c] fail and a call made for [c] raises another
    exception, that exception leaves [_connect_socket] at once: the
    candidates after [c] are not tried, no [ClientError] is raised, the
    socket of [c] is not closed and, once created, stays in [_base_sock]. *)
Theorem connect_socket_aborted (E : env) (timeOut : pyval) (s : session)
        (pre post : list candidate) (c : candidate) (e : exn) :
  truthy (_address s) = true ->
  truthy (_port s) = true ->
  getaddrinfo E (_address s) (_port s) = Ok (pre ++ c :: post) ->
  forallb candidate_fails pre = true ->
  candidate_aborts c = Some e ->
  _connect_socket E timeOut s
  = (Raise e,
     match on_socket c with
     | Some _ => match pre with [] => s | _ => set__base_sock None s end
     | None => set__base_sock (Some (sock_of c)) s
     end,
     EvGetaddrinfo (_address s) (_port s)
     :: flat_map (attempt timeOut) pre ++ calls_until_raise timeOut c).
Proof.
  intros Ha Hp Hr Hpre Hc.
  rewrite (connect_socket_resolved E timeOut s _ Ha Hp Hr).
  destruct pre as [|c0 pre].
  - cbn [app flat_map]. rewrite (connect_loop_aborted timeOut c post s e Hc).
    reflexivity.
  - rewrite connect_loop_skip by (exact Hpre || discriminate).
    rewrite (connect_loop_aborted timeOut c post _ e Hc).
    destruct (on_socket c); reflexivity.
Qed.

Lemma connect_socket_aborted_witness :
  _connect_socket
    (world "posix" "linux" [refused addr6; bad_timeout addr4; reachable addr4]
           None None (Ok (PList [])))
    (PInt (-1)) (router PlainClient true true)
  = (Raise (ValueError "Timeout value out of range" None),
     set__base_sock (Some (Socket 2 1 6)) (router PlainClient true true),
     [EvGetaddrinfo (PStr "router.example") (PInt 8729);
      EvSocket 10 1 6; EvSetTimeout (Socket 10 1 6) (PInt (-1));
      EvConnect (Socket 10 1 6) (sockaddr addr6); EvClose (Socket 10 1 6);
      EvSocket 2 1 6; EvSetTimeout (Socket 2 1 6) (PInt (-1))]).
Proof.
  apply (connect_socket_aborted
           (world "posix" "linux" [refused addr6; bad_timeout addr4; reachable addr4]
                  None None (Ok (PList [])))
           (PInt (-1)) (router PlainClient true true)
           [refused addr6] [reachable addr4] (bad_timeout addr4)
           (ValueError "Timeout value out of range" None));
    reflexivity.
Defined.

Lemma connect_socket_effect_witness :
  exists b,
    _base_sock (snd (fst (_connect_socket lab (PInt 60) (router PlainClient true true))))
    = Some b.
Proof.
  pose proof (connect_socket_effect lab (PInt 60) (router PlainClient true true)) as H.
  destruct (_connect_socket lab (PInt 60) (router PlainClient true true))
    as [[r s'] tr] eqn:Hrun.
  assert (Hr : r = Ok tt) by (inversion Hrun; reflexivity).
  destruct H as [_ [_ [_ [_ [_ [_ [_ [_ H]]]]]]]]. exact (H Hr).
Defined.

(** [self._connect(timeOut)] is the method of the object's class. *)
Lemma connect_dispatch (E : env) (timeOut : pyval) (s : session) :
  _connect E timeOut s
  = match cls s with
    | PlainClient => _connect_plain E timeOut s
    | SslClient => _connect_ssl E timeOut s
    end.
Proof.
  unfold _connect, mbind, get.
  destruct (cls s);
    [destruct (_connect_plain E timeOut s) as [[r s'] tr]
    |destruct (_connect_ssl E timeOut s) as [[r s'] tr]]; reflexivity.
Qed.

(** [TikapyBaseClient._connect], by the outcome of [_connect_socket]. *)
Lemma connect_plain_outcome (E : env) (timeOut : pyval) (s : session) :
  _connect_plain E timeOut s
  = let '(r, s1, tr1) := _connect_socket E timeOut s in
    match r with
    | Ok _ => (Ok tt, set__sock (_base_sock s1) s1, tr1)
    | Raise e => (Raise e, s1, tr1)
    end.
Proof.
  unfold _connect_plain, mbind, get, modify.
  destruct (_connect_socket E timeOut s) as [[[[]|e] s1] tr1]; [|reflexivity].
  cbn. now rewrite app_nil_r.
Qed.

(** X5.  The plain client's [_connect] makes transport calls only.  When
    it returns, the stream [_sock] is the very socket held in
    [_base_sock]; when it raises, [_sock] is what it was. *)
Theorem connect_plain_stream (E : env) (timeOut : pyval) (s s' : session)
        (r : result unit) (tr : list event) :
  cls s = PlainClient ->
  _connect E timeOut s = (r, s', tr) ->
  forallb socket_event tr = true
  /\ (r = Ok tt -> exists b, _base_sock s' = Some b /\ _sock s' = Some b)
  /\ (forall e, r = Raise e -> _sock s' = _sock s).
Proof.
  intros Hcls. rewrite connect_dispatch, Hcls, connect_plain_outcome.
  pose proof (connect_socket_frame E timeOut s) as Hf.
  pose proof (connect_socket_success E timeOut s) as Hs.
  destruct (_connect_socket E timeOut s) as [[[[]|e] s1] tr1];
    destruct Hf as [Heq Ht]; intros H; inversion H; subst.
  - split; [exact Ht|]. split; [|discriminate].
    intros _. destruct (Hs s1 tr eq_refl) as [b Hb]. exists b.
    cbn [_base_sock _sock set__sock]. rewrite Hb. split; reflexivity.
  - split; [exact Ht|]. split; [discriminate|].
    intros e' _. rewrite Heq. reflexivity.
Qed.

Lemma connect_plain_stream_witness :
  (exists b,
      _sock (snd (fst (_connect lab (PInt 60) (router PlainClient true true))))
      = Some b)
  /\ _sock (snd (fst (_connect offline (PInt 60) (router PlainClient true true))))
     = None.
Proof.
  split.
  - destruct (connect_plain_stream lab (PInt 60) (router PlainClient true true)
                _ _ _ eq_refl eq_refl) as [_ [H _]].
    destruct (H eq_refl) as [b [_ Hs]]. exists b. exact Hs.
  - destruct (connect_plain_stream offline (PInt 60) (router PlainClient true true)
                _ _ _ eq_refl eq_refl) as [_ [_ H]].
    exact (H OSError eq_refl).
Defined.

(** X6.  When the secure client's [_connect] returns, the stream [_sock]
    is a TLS socket made from the context of the host's branch, the socket
    held in [_base_sock] and the session's address as server host name;
    the handshake was the last call, after transport calls only. *)
Theorem connect_ssl_stream (E : env) (timeOut : pyval) (s s' : session)
        (tr : list event) :
  cls s = SslClient ->
  _connect E timeOut s = (Ok tt, s', tr) ->
  exists ctx b tr1,
    make_context E s = Ok ctx
    /\ _base_sock s' = Some b
    /\ _sock s' = Some (SSLSocket ctx b (_address s))
    /\ hasattr_getpeercert (_sock s') = true
    /\ tr = tr1 ++ [EvWrapSocket ctx b (_address s)]
    /\ forallb socket_event tr1 = true.
Proof.
  intros Hcls. rewrite connect_dispatch, Hcls, connect_ssl_outcome.
  pose proof (connect_socket_frame E timeOut s) as Hf.
  destruct (_connect_socket E timeOut s) as [[[[]|e] s1] tr1];
    destruct Hf as [Heq Ht]; [|discriminate].
  rewrite Heq at 1. rewrite make_context_frame.
  destruct (make_context E s) as [ctx|e]; [|destruct e; discriminate].
  destruct (_base_sock s1) as [b|] eqn:Hb; [|discriminate].
  cbv zeta.
  assert (Ha : _address s1 = _address s) by (rewrite Heq; reflexivity).
  rewrite Ha.
  destruct (wrap_socket E ctx b (_address s)) as [e|]; [destruct e; discriminate|].
  intros H. inversion H. subst. exists ctx, b, tr1.
  repeat split; auto.
Qed.

Lemma connect_ssl_stream_witness :
  exists ctx b tr1,
    _sock (snd (fst (_connect lab (PInt 60) (router SslClient true true))))
    = Some (SSLSocket ctx b (PStr "router.example"))
    /\ snd (_connect lab (PInt 60) (router SslClient true true))
       = tr1 ++ [EvWrapSocket ctx b (PStr "router.example")].
Proof.
  destruct (connect_ssl_stream lab (PInt 60) (router SslClient true true)
              _ _ eq_refl eq_refl) as [ctx [b [tr1 [_ [_ [H1 [_ [H2 _]]]]]]]].
  exists ctx, b, tr1. split; [exact H1 | exact H2].
Defined.

Lemma make_context_cipher_error (E : env) (s : session) (e : exn) :
  set_ciphers E (branch_ciphers E) = Some e -> make_context E s = Raise e.
Proof.
  unfold make_context, branch_ciphers, ctx_set_ciphers.
  destruct (on_windows E); intros ->; reflexivity.
Qed.

(** X7.  When the TLS library rejects the cipher string of the host's
    branch with [ssl.SSLError], the secure client's [_connect] raises
    [ClientError('could not establish SSL connection')] without attempting
    a handshake; the connected base socket is kept and [_sock] is not set. *)
Theorem connect_ssl_cipher_rejected (E : env) (timeOut : pyval) (s s1 : session)
        (tr1 : list event) :
  cls s = SslClient ->
  _connect_socket E timeOut s = (Ok tt, s1, tr1) ->
  set_ciphers E (branch_ciphers E) = Some SSLError ->
  _connect E timeOut s = (Raise (ClientError ssl_msg None), s1, tr1)
  /\ _sock s1 = _sock s
  /\ forall ctx b h, ~ In (EvWrapSocket ctx b h) tr1.
Proof.
  intros Hcls Hc Hs.
  pose proof (connect_socket_frame E timeOut s) as Hf. rewrite Hc in Hf.
  destruct Hf as [Heq Ht].
  split; [|split].
  - rewrite connect_dispatch, Hcls, connect_ssl_outcome, Hc.
    rewrite (make_context_cipher_error E s1 SSLError Hs). cbn.
    now rewrite app_nil_r.
  - rewrite Heq. reflexivity.
  - intros ctx b h Hin. rewrite forallb_forall in Ht. specialize (Ht _ Hin).
    discriminate Ht.
Qed.

Lemma connect_ssl_cipher_rejected_witness :
  _connect no_adh (PInt 60) (router SslClient true true)
  = (Raise (ClientError ssl_msg None),
     set__base_sock (Some (Socket 2 1 6)) (router SslClient true true),
     [EvGetaddrinfo (PStr "router.example") (PInt 8729);
      EvSocket 2 1 6; EvSetTimeout (Socket 2 1 6) (PInt 60);
      EvConnect (Socket 2 1 6) (sockaddr addr4)]).
Proof.
  apply (connect_ssl_cipher_rejected no_adh (PInt 60) (router SslClient true true));
    reflexivity.
Defined.

(** X8.  Only [ssl.SSLError] is translated.  When the handshake raises
    another exception (a plain [socket.error], say), it leaves the secure
    client's [_connect] as it is, and [_sock] is not set. *)
Theorem connect_ssl_other_error (E : env) (timeOut : pyval) (s s1 : session)
        (tr1 : list event) (ctx : ssl_context) (b : sock) (e : exn) :
  cls s = SslClient ->
  _connect_socket E timeOut s = (Ok tt, s1, tr1) ->
  make_context E s1 = Ok ctx ->
  _base_sock s1 = Some b ->
  wrap_socket E ctx b (_address s1) = Some e ->
  e <> SSLError ->
  _connect E timeOut s = (Raise e, s1, tr1 ++ [EvWrapSocket ctx b (_address s1)])
  /\ _sock s1 = _sock s.
Proof.
  intros Hcls Hc Hctx Hb Hw Hne.
  split.
  - rewrite connect_dispatch, Hcls, connect_ssl_outcome, Hc, Hctx, Hb.
    cbv zeta. rewrite Hw. destruct e; try reflexivity. contradiction.
  - pose proof (connect_socket_frame E timeOut s) as Hf. rewrite Hc in Hf.
    destruct Hf as [-> _]. reflexivity.
Qed.

Lemma connect_ssl_other_error_witness :
  fst (fst (_connect
              (world "posix" "linux" [reachable addr4] (Some OSError) None
                     (Ok (PList [])))
              (PInt 60) (router SslClient true true)))
  = Raise OSError.
Proof.
  destruct (connect_ssl_other_error
              (world "posix" "linux" [reachable addr4] (Some OSError) None
                     (Ok (PList [])))
              (PInt 60) (router SslClient true true)
              (set__base_sock (Some (Socket 2 1 6)) (router SslClient true true))
              [EvGetaddrinfo (PStr "router.example") (PInt 8729);
               EvSocket 2 1 6; EvSetTimeout (Socket 2 1 6) (PInt 60);
               EvConnect (Socket 2 1 6) (sockaddr addr4)]
              (mkContext CERT_OPTIONAL false (Some "ADH"%string))
              (Socket 2 1 6) OSError
              eq_refl eq_refl eq_refl eq_refl eq_refl) as [H _].
  - discriminate.
  - rewrite H. reflexivity.
Defined.

End Transport.

(** ** Further properties of [login] *)

Section Login.

Local Open Scope list_scope.

Lemma connect_loop_plain_sock (timeOut : pyval) (cands : list candidate)
      (s : session) :
  hasattr_getpeercert (_base_sock s) = false ->
  hasattr_getpeercert (_base_sock (snd (fst (connect_loop timeOut cands s)))) = false.
Proof.
  revert s. induction cands as [|c rest IH]; intros s Hs; [exact Hs|].
  rewrite connect_loop_cons. cbv zeta.
  pose proof (IH (set__base_sock None s) eq_refl) as Hn.
  destruct (connect_loop timeOut rest (set__base_sock None s)) as [[r s'] tr].
  cbn [fst snd] in Hn.
  destruct (on_socket c) as [e1|].
  { destruct (is_socket_error e1); [exact Hn | exact Hs]. }
  destruct (on_settimeout c) as [e2|].
  { destruct (is_socket_error e2); [exact Hn | reflexivity]. }
  destruct (on_connect c) as [e3|]; [|reflexivity].
  destruct (is_socket_error e3); [exact Hn | reflexivity].
Qed.

Lemma connect_socket_plain_sock (E : env) (timeOut : pyval) (s : session) :
  hasattr_getpeercert (_base_sock s) = false ->
  hasattr_getpeercert (_base_sock (snd (fst (_connect_socket E timeOut s)))) = false.
Proof.
  intros Hs. unfold _connect_socket, mbind, get, emit, lift, raise, ret.
  destruct (truthy (_address s)); cbn [negb]; [|exact Hs].
  destruct (truthy (_port s)); cbn [negb]; [|exact Hs].
  destruct (getaddrinfo E (_address s) (_port s)) as [cands|e]; [|exact Hs].
  pose proof (connect_loop_plain_sock timeOut cands s Hs) as H.
  destruct (connect_loop timeOut cands s) as [[[[]|e] s'] tr]; [|exact H].
  destruct (_base_sock s'); exact H.
Qed.

(** What [_connect] leaves in the session when it returns. *)
Lemma connect_success_stream (E : env) (timeOut : pyval) (s s' : session)
      (tr : list event) :
  _connect E timeOut s = (Ok tt, s', tr) ->
  _api s' = _api s
  /\ exists stream base,
      _sock s' = Some stream /\ _base_sock s' = Some base
      /\ match cls s with
         | PlainClient => stream = base
         | SslClient => exists ctx, stream = SSLSocket ctx base (_address s)
         end.
Proof.
  rewrite connect_dispatch.
  pose proof (connect_socket_frame E timeOut s) as Hf.
  pose proof (connect_socket_success E timeOut s) as Hs.
  destruct (cls s).
  - rewrite connect_plain_outcome.
    destruct (_connect_socket E timeOut s) as [[[[]|e] s1] tr1];
      destruct Hf as [Heq _]; [|discriminate].
    destruct (Hs s1 tr1 eq_refl) as [b Hb].
    intros H. inversion H. subst s' tr. cbn [_api _sock _base_sock set__sock].
    split; [rewrite Heq; reflexivity|].
    exists b, b. rewrite Hb. auto.
  - rewrite connect_ssl_outcome.
    destruct (_connect_socket E timeOut s) as [[[[]|e] s1] tr1];
      destruct Hf as [Heq _]; [|discriminate].
    assert (Ha : _address s1 = _address s) by (rewrite Heq; reflexivity).
    assert (Hapi : _api s1 = _api s) by (rewrite Heq; reflexivity).
    destruct (make_context E s1) as [ctx|e]; [|destruct e; discriminate].
    destruct (_base_sock s1) as [b|] eqn:Hb; [|discriminate].
    cbv zeta.
    destruct (wrap_socket E ctx b (_address s1)) as [e|]; [destruct e; discriminate|].
    intros H. inversion H. subst s' tr. cbn [_api _sock _base_sock set__sock].
    split; [exact Hapi|].
    exists (SSLSocket ctx b (_address s1)), b. rewrite Hb, Ha. eauto.
Qed.

(** What [_connect] leaves in the session when it raises. *)
Lemma connect_failure_frame (E : env) (timeOut : pyval) (s s' : session)
      (e : exn) (tr : list event) :
  _connect E timeOut s = (Raise e, s', tr) ->
  _api s' = _api s /\ _sock s' = _sock s.
Proof.
  rewrite connect_dispatch.
  pose proof (connect_socket_frame E timeOut s) as Hf.
  destruct (cls s).
  - rewrite connect_plain_outcome.
    destruct (_connect_socket E timeOut s) as [[[[]|e'] s1] tr1];
      destruct Hf as [Heq _]; [discriminate|].
    intros H. inversion H. subst. rewrite Heq. split; reflexivity.
  - rewrite connect_ssl_outcome.
    destruct (_connect_socket E timeOut s) as [[[[]|e'] s1] tr1];
      destruct Hf as [Heq _];
      [|intros H; inversion H; subst; rewrite Heq; split; reflexivity].
    assert (Hgoal : forall (r : result unit) tr2,
               prepend tr1 (r, s1, tr2) = (Raise e, s', tr) ->
               _api s' = _api s /\ _sock s' = _sock s).
    { intros r tr2 H. inversion H. subst. rewrite Heq. split; reflexivity. }
    destruct (make_context E s1) as [ctx|e']; [|destruct e'; apply Hgoal].
    destruct (_base_sock s1) as [b|]; [|apply Hgoal].
    cbv zeta.
    destruct (wrap_socket E ctx b (_address s1)) as [e'|];
      [destruct e'; apply Hgoal | discriminate].
Qed.

Lemma connect_no_login (E : env) (timeOut : pyval) (s : session)
      (api : apiros) (u p : string) (flag : bool) :
  ~ In (EvApiLogin api u p flag) (snd (_connect E timeOut s)).
Proof.
  intros Hin. destruct (connect_trace E timeOut s _ Hin) as [H | [ctx [b [h H]]]];
    discriminate H.
Qed.

(** X9.  The secure client always lets the engine send the password in
    plain: every login it passes to the protocol engine has
    [send_plain_password] true, whatever [allow_insecure_auth_without_tls]
    is. *)
Theorem login_ssl_flag (E : env) (user password : string) (timeOut : pyval)
        (allow : bool) (s : session) :
  cls s = SslClient ->
  forall api u p flag,
    In (EvApiLogin api u p flag) (snd (login E user password timeOut allow s)) ->
    flag = true.
Proof.
  intros Hcls api u p flag. rewrite login_outcome.
  pose proof (connect_no_login E timeOut s api u p flag) as Hno.
  pose proof (connect_success_stream E timeOut s) as Hs.
  destruct (_connect E timeOut s) as [[[[]|e] s1] tr1]; cbn [snd] in *;
    [|intros Hin; contradiction].
  cbv zeta. cbn [snd]. intros Hin. apply in_app_or in Hin.
  destruct Hin as [Hin | [Hin | []]]; [contradiction|].
  destruct (Hs s1 tr1 eq_refl) as [_ [stream [base [Hst [_ Hk]]]]].
  rewrite Hcls in Hk. destruct Hk as [ctx ->].
  inversion Hin. rewrite Hst. reflexivity.
Qed.

Lemma login_ssl_flag_witness :
  let tls :=
    SSLSocket (mkContext CERT_OPTIONAL false (Some "ADH"%string))
              (Socket 2 1 6) (PStr "router.example") in
  exists flag,
    In (EvApiLogin (ApiRos (Some tls)) "admin" "secret" flag)
       (snd (login lab "admin" "secret" (PInt 60) false (router SslClient true true)))
    /\ flag = true.
Proof.
  cbv zeta. exists true.
  assert (Hin : In (EvApiLogin
                      (ApiRos (Some (SSLSocket
                                       (mkContext CERT_OPTIONAL false (Some "ADH"%string))
                                       (Socket 2 1 6) (PStr "router.example"))))
                      "admin" "secret" true)
                   (snd (login lab "admin" "secret" (PInt 60) false
                               (router SslClient true true))))
    by (cbn; tauto).
  split; [exact Hin|].
  exact (login_ssl_flag lab "admin" "secret" (PInt 60) false
           (router SslClient true true) eq_refl _ _ _ _ Hin).
Defined.

(** X10.  The plain client lets the engine send the password in plain
    only on request: when its base socket is not a TLS socket to begin
    with, every login it passes to the protocol engine has
    [send_plain_password] equal to [allow_insecure_auth_without_tls]. *)
Theorem login_plain_flag (E : env) (user password : string) (timeOut : pyval)
        (allow : bool) (s : session) :
  cls s = PlainClient ->
  hasattr_getpeercert (_base_sock s) = false ->
  forall api u p flag,
    In (EvApiLogin api u p flag) (snd (login E user password timeOut allow s)) ->
    flag = allow.
Proof.
  intros Hcls Hbase api u p flag. rewrite login_outcome.
  pose proof (connect_no_login E timeOut s api u p flag) as Hno.
  pose proof (connect_success_stream E timeOut s) as Hs.
  assert (Hplain : forall s1 tr1,
             _connect E timeOut s = (Ok tt, s1, tr1) ->
             hasattr_getpeercert (_base_sock s1) = false).
  { rewrite connect_dispatch, Hcls, connect_plain_outcome.
    pose proof (connect_socket_plain_sock E timeOut s Hbase) as Hp.
    destruct (_connect_socket E timeOut s) as [[[[]|e] s0] tr0]; [|discriminate].
    intros s1 tr1 H. inversion H. subst. exact Hp. }
  destruct (_connect E timeOut s) as [[[[]|e] s1] tr1]; cbn [snd] in *;
    [|intros Hin; contradiction].
  cbv zeta. cbn [snd]. intros Hin. apply in_app_or in Hin.
  destruct Hin as [Hin | [Hin | []]]; [contradiction|].
  destruct (Hs s1 tr1 eq_refl) as [_ [stream [base [Hst [Hb Hk]]]]].
  rewrite Hcls in Hk. subst stream.
  specialize (Hplain s1 tr1 eq_refl). rewrite Hb in Hplain.
  inversion Hin. rewrite Hst, Hplain. reflexivity.
Qed.

Lemma login_plain_flag_witness :
  exists flag,
    In (EvApiLogin (ApiRos (Some (Socket 2 1 6))) "admin" "secret" flag)
       (snd (login lab "admin" "secret" (PInt 60) false (router PlainClient true true)))
    /\ flag = false.
Proof.
  exists false.
  assert (Hin : In (EvApiLogin (ApiRos (Some (Socket 2 1 6))) "admin" "secret" false)
                   (snd (login lab "admin" "secret" (PInt 60) false
                               (router PlainClient true true))))
    by (cbn; tauto).
  split; [exact Hin|].
  exact (login_plain_flag lab "admin" "secret" (PInt 60) false
           (router PlainClient true true) eq_refl eq_refl _ _ _ _ Hin).
Defined.

(** X11.  When [_connect] raises, [login] raises the same exception, the
    protocol engine is not called, and the session keeps the engine handle
    [_api] and the stream [_sock] it had. *)
Theorem login_connect_failure (E : env) (user password : string)
        (timeOut : pyval) (allow : bool) (s s1 : session) (e : exn)
        (tr1 : list event) :
  _connect E timeOut s = (Raise e, s1, tr1) ->
  login E user password timeOut allow s = (Raise e, s1, tr1)
  /\ _api s1 = _api s /\ _sock s1 = _sock s
  /\ forall api u p flag, ~ In (EvApiLogin api u p flag) tr1.
Proof.
  intros Hc.
  destruct (connect_failure_frame E timeOut s s1 e tr1 Hc) as [Hapi Hsock].
  split; [rewrite login_outcome, Hc; reflexivity|].
  split; [exact Hapi | split; [exact Hsock|]].
  intros api u p flag Hin.
  apply (connect_no_login E timeOut s api u p flag). now rewrite Hc.
Qed.

Lemma login_connect_failure_witness :
  login (world "posix" "linux" [refused addr4] None None (Ok (PList [])))
        "admin" "secret" (PInt 60) true (router PlainClient true true)
  = (Raise (ClientError socket_msg None),
     set__base_sock None (router PlainClient true true),
     [EvGetaddrinfo (PStr "router.example") (PInt 8729);
      EvSocket 2 1 6; EvSetTimeout (Socket 2 1 6) (PInt 60);
      EvConnect (Socket 2 1 6) (sockaddr addr4); EvClose (Socket 2 1 6)]).
Proof.
  apply (login_connect_failure
           (world "posix" "linux" [refused addr4] None None (Ok (PList [])))
           "admin" "secret" (PInt 60) true (router PlainClient true true)).
  reflexivity.
Defined.

(** X12.  When the stream is up and the engine's login raises [ApiError]
    or [ApiUnrecoverableError], [login] raises [ClientError('could not
    login')] with that exception as its cause; any other exception of the
    engine leaves [login] as it is.  Either way nothing is torn down: the
    session holds the stream, and the engine handle made for it. *)
Theorem login_engine_error (E : env) (user password : string)
        (timeOut : pyval) (allow : bool) (s s1 : session) (e : exn)
        (tr1 : list event) :
  _connect E timeOut s = (Ok tt, s1, tr1) ->
  api_login E (ApiRos (_sock s1)) user password
            (hasattr_getpeercert (_sock s1) || allow) = Some e ->
  let s' := snd (fst (login E user password timeOut allow s)) in
  (e = ApiError \/ e = ApiUnrecoverableError ->
   fst (fst (login E user password timeOut allow s))
   = Raise (ClientError "could not login" (Some e)))
  /\ (e <> ApiError -> e <> ApiUnrecoverableError ->
      fst (fst (login E user password timeOut allow s)) = Raise e)
  /\ _api s' = Some (ApiRos (_sock s'))
  /\ (exists stream, _sock s' = Some stream)
  /\ _sock s' = _sock s1 /\ _base_sock s' = _base_sock s1.
Proof.
  intros Hc He. cbv zeta. rewrite login_outcome, Hc. cbv zeta. rewrite He.
  cbn [fst snd _api _sock _base_sock set__api].
  destruct (connect_success_stream E timeOut s s1 tr1 Hc)
    as [_ [stream [base [Hst _]]]].
  split; [|split; [|split; [|split; [|split]]]]; try reflexivity.
  - intros [-> | ->]; reflexivity.
  - intros H1 H2. destruct e; try reflexivity; contradiction.
  - eauto.
Qed.

Lemma login_engine_error_witness :
  fst (fst (login (world "posix" "linux" [reachable addr4] None (Some ApiError)
                         (Ok (PList [])))
                  "admin" "wrong" (PInt 60) false (router SslClient true true)))
  = Raise (ClientError "could not login" (Some ApiError)).
Proof.
  destruct (login_engine_error
              (world "posix" "linux" [reachable addr4] None (Some ApiError)
                     (Ok (PList [])))
              "admin" "wrong" (PInt 60) false (router SslClient true true)
              _ ApiError _ eq_refl eq_refl) as [H _].
  apply H. left. reflexivity.
Defined.

(** X13.  When [_connect] returns and the engine's login succeeds, [login]
    returns; the session then holds a stream and the engine handle made
    for that stream, and the login was the last call made. *)
Theorem login_success (E : env) (user password : string) (timeOut : pyval)
        (allow : bool) (s s1 : session) (tr1 : list event) :
  _connect E timeOut s = (Ok tt, s1, tr1) ->
  api_login E (ApiRos (_sock s1)) user password
            (hasattr_getpeercert (_sock s1) || allow) = None ->
  exists stream,
    _sock s1 = Some stream
    /\ login E user password timeOut allow s
       = (Ok tt,
          set__api (Some (ApiRos (Some stream))) s1,
          tr1 ++ [EvApiLogin (ApiRos (Some stream)) user password
                             (hasattr_getpeercert (Some stream) || allow)]).
Proof.
  intros Hc He.
  destruct (connect_success_stream E timeOut s s1 tr1 Hc)
    as [_ [stream [base [Hst _]]]].
  exists stream. split; [exact Hst|].
  rewrite login_outcome, Hc. cbv zeta. rewrite He, Hst. reflexivity.
Qed.

Lemma login_success_witness :
  exists stream,
    login lab "admin" "secret" (PInt 60) false (router PlainClient true true)
    = (Ok tt,
       set__api (Some (ApiRos (Some stream)))
                (set__sock (Some stream)
                   (set__base_sock (Some stream) (router PlainClient true true))),
       [EvGetaddrinfo (PStr "router.example") (PInt 8729);
        EvSocket 2 1 6; EvSetTimeout (Socket 2 1 6) (PInt 60);
        EvConnect (Socket 2 1 6) (sockaddr addr4);
        EvApiLogin (ApiRos (Some stream)) "admin" "secret" false]).
Proof.
  destruct (login_success lab "admin" "secret" (PInt 60) false
              (router PlainClient true true) _ _ eq_refl eq_refl)
    as [stream [Hst H]].
  exists stream. inversion Hst. subst stream. exact H.
Defined.

End Login.

(** ** Further properties of [talk], of the [port] setter and of the
    constructors *)

Section Exchange.

Local Open Scope list_scope.

Lemma all_str_map (ws : list string) : all_str (map PStr ws) = Some ws.
Proof.
  induction ws as [|w ws IH]; [reflexivity|]. cbn [map all_str]. now rewrite IH.
Qed.

Lemma all_str_some (l : list pyval) (ws : list string) :
  all_str l = Some ws -> l = map PStr ws.
Proof.
  revert ws. induction l as [|x l IH]; intros ws.
  - intros H. inversion H. reflexivity.
  - cbn [all_str]. destruct x; try discriminate.
    destruct (all_str l) as [ws'|]; [|discriminate].
    intros H. inversion H. cbn [map]. now rewrite (IH ws' eq_refl).
Qed.

(** [talk], for words that pass the check. *)
Lemma talk_outcome (E : env) (ws : list string) (s : session) :
  talk E (PList (map PStr ws)) s
  = match _api s with
    | None => (Raise AttributeError, s, [])
    | Some api =>
        (match api_talk E api ws with
         | Ok out => tik_to_json out
         | Raise ApiError => Raise (ClientError "could not talk to api" (Some ApiError))
         | Raise ApiUnrecoverableError =>
             Raise (ClientError "could not talk to api" (Some ApiUnrecoverableError))
         | Raise e => Raise e
         end, s, [EvApiTalk api ws])
    end.
Proof.
  unfold talk. cbn [list_of_str]. rewrite all_str_map.
  unfold try_except, mbind, get, emit, lift, raise.
  destruct (_api s) as [api|]; [|reflexivity].
  destruct (api_talk E api ws) as [out|e].
  - pose proof (tik_to_json out) as r.
    assert (Hr : forall e, tik_to_json out = Raise e ->
                           e <> ApiError /\ e <> ApiUnrecoverableError).
    { intros e He. unfold tik_to_json in He.
      destruct (scalar_step out) as [[v|]|e'] eqn:Hs; [discriminate| |].
      - unfold mapping_step in He.
        destruct (mapping_body out) as [v|e'] eqn:Hm; [discriminate|].
        destruct (mapping_body_raises out e' Hm) as [-> | [-> | [-> | ->]]];
          inversion He; split; discriminate.
      - inversion He. subst.
        destruct (scalar_step_raises out e Hs) as [-> _]. split; discriminate. }
    cbn. destruct (tik_to_json out) as [v|e]; [reflexivity|].
    destruct (Hr e eq_refl) as [H1 H2]. destruct e; try reflexivity; contradiction.
  - destruct e; reflexivity.
Qed.

(** X14.  [talk] calls the protocol engine exactly when [words] is a list
    of strings (the empty list included): on a session with an engine
    handle, the calls made are the one [talk] of the engine with these
    strings if [words] is such a list, and none otherwise.  In no case
    does [talk] change the session. *)
Theorem talk_calls_engine (E : env) (words : pyval) (s : session) (api : apiros) :
  _api s = Some api ->
  snd (fst (talk E words s)) = s
  /\ (forall ws, words = PList (map PStr ws) ->
                 snd (talk E words s) = [EvApiTalk api ws])
  /\ ((forall ws, words <> PList (map PStr ws)) -> snd (talk E words s) = []).
Proof.
  intros Hapi. split; [|split].
  - destruct (list_of_str words) as [ws|] eqn:Hw.
    + assert (words = PList (map PStr ws)) as ->.
      { destruct words; try discriminate Hw. cbn in Hw.
        now rewrite (all_str_some _ _ Hw). }
      rewrite talk_outcome, Hapi. reflexivity.
    + unfold talk. rewrite Hw. reflexivity.
  - intros ws ->. rewrite talk_outcome, Hapi. reflexivity.
  - intros Hno. destruct (list_of_str words) as [ws|] eqn:Hw.
    + destruct words; try discriminate Hw. cbn in Hw.
      apply all_str_some in Hw. subst. now destruct (Hno ws).
    + unfold talk. rewrite Hw. reflexivity.
Qed.

Lemma talk_calls_engine_witness :
  snd (talk lab (PList []) (set__api (Some (ApiRos None)) (init PlainClient)))
  = [EvApiTalk (ApiRos None) []]
  /\ snd (talk lab (PList [PStr "/interface/print"])
               (set__api (Some (ApiRos None)) (init PlainClient)))
     = [EvApiTalk (ApiRos None) ["/interface/print"%string]].
Proof.
  split.
  - apply (proj1 (proj2 (talk_calls_engine lab (PList [])
                           (set__api (Some (ApiRos None)) (init PlainClient))
                           (ApiRos None) eq_refl)) []).
    reflexivity.
  - apply (proj1 (proj2 (talk_calls_engine lab (PList [PStr "/interface/print"])
                           (set__api (Some (ApiRos None)) (init PlainClient))
                           (ApiRos None) eq_refl)) ["/interface/print"%string]).
    reflexivity.
Defined.

(** X15.  On a session that never logged in ([_api] is [None]), [talk]
    with a list of strings raises [AttributeError], not [ClientError], and
    calls nothing. *)
Theorem talk_before_login (E : env) (ws : list string) (s : session) :
  _api s = None ->
  talk E (PList (map PStr ws)) s = (Raise AttributeError, s, []).
Proof. intros H. rewrite talk_outcome, H. reflexivity. Qed.

Lemma talk_before_login_witness :
  talk lab (PList [PStr "/interface/print"]) (router PlainClient true true)
  = (Raise AttributeError, router PlainClient true true, []).
Proof.
  apply (talk_before_login lab ["/interface/print"%string]
           (router PlainClient true true)).
  reflexivity.
Defined.

(** X16.  When the engine's [talk] raises [ApiError] or
    [ApiUnrecoverableError], [talk] raises [ClientError('could not talk to
    api')] with that exception as its cause; any other exception of the
    engine leaves [talk] as it is. *)
Theorem talk_engine_error (E : env) (ws : list string) (s : session)
        (api : apiros) (e : exn) :
  _api s = Some api ->
  api_talk E api ws = Raise e ->
  (e = ApiError \/ e = ApiUnrecoverableError ->
   talk E (PList (map PStr ws)) s
   = (Raise (ClientError "could not talk to api" (Some e)), s, [EvApiTalk api ws]))
  /\ (e <> ApiError -> e <> ApiUnrecoverableError ->
      talk E (PList (map PStr ws)) s = (Raise e, s, [EvApiTalk api ws])).
Proof.
  intros Hapi He. rewrite talk_outcome, Hapi, He. split.
  - intros [-> | ->]; reflexivity.
  - intros H1 H2. destruct e; try reflexivity; contradiction.
Qed.

Lemma talk_engine_error_witness :
  talk (world "posix" "linux" [reachable addr4] None None (Raise ApiError))
       (PList [PStr "/interface/print"])
       (set__api (Some (ApiRos None)) (init PlainClient))
  = (Raise (ClientError "could not talk to api" (Some ApiError)),
     set__api (Some (ApiRos None)) (init PlainClient),
     [EvApiTalk (ApiRos None) ["/interface/print"%string]]).
Proof.
  apply (proj1 (talk_engine_error
                  (world "posix" "linux" [reachable addr4] None None (Raise ApiError))
                  ["/interface/print"%string]
                  (set__api (Some (ApiRos None)) (init PlainClient))
                  (ApiRos None) ApiError eq_refl eq_refl)).
  left. reflexivity.
Defined.

(** X17.  When the engine answers a well-typed sentence, [talk] does not
    raise: it returns the [ret] value of a first record tagged [!done], and
    otherwise the mapping built from the records that have an [.id]. *)
Theorem talk_reply (E : env) (ws : list string) (s : session) (api : apiros)
        (reply : sentence) :
  _api s = Some api ->
  api_talk E api ws = Ok (py_sentence reply) ->
  exists v,
    talk E (PList (map PStr ws)) s = (Ok v, s, [EvApiTalk api ws])
    /\ (scalar_hit reply = false -> v = py_mapping (build (keyed reply)))
    /\ (scalar_hit reply = true ->
        exists tag a rest ret,
          reply = (tag, a) :: rest /\ assoc a "ret" = Some ret /\ v = PStr ret).
Proof.
  intros Hapi Hr. rewrite talk_outcome, Hapi, Hr.
  destruct (scalar_hit reply) eqn:Hhit.
  - destruct reply as [|[tag a] rest]; [discriminate Hhit|].
    cbn [scalar_hit] in Hhit. apply andb_true_iff in Hhit. destruct Hhit as [Ht Ha].
    destruct (assoc a "ret") as [ret|] eqn:Hret; [|discriminate Ha].
    exists (PStr ret). split; [|split; [discriminate|]].
    + unfold tik_to_json. rewrite scalar_step_typed, Ht, Hret. reflexivity.
    + intros _. exists tag, a, rest, ret. auto.
  - exists (py_mapping (build (keyed reply))).
    split; [|split; [reflexivity | discriminate]].
    now rewrite tik_to_json_typed.
Qed.

Lemma talk_reply_witness :
  exists v,
    talk (world "posix" "linux" [reachable addr4] None None
                (Ok (py_sentence interfaces)))
         (PList [PStr "/interface/print"])
         (set__api (Some (ApiRos None)) (init PlainClient))
    = (Ok v, set__api (Some (ApiRos None)) (init PlainClient),
       [EvApiTalk (ApiRos None) ["/interface/print"%string]])
    /\ v = py_mapping [("1", [(".id", "*1"); ("name", "ether1")]);
                       ("2", [(".id", "*2"); ("name", "ether2")])]%string.
Proof.
  destruct (talk_reply
              (world "posix" "linux" [reachable addr4] None None
                     (Ok (py_sentence interfaces)))
              ["/interface/print"%string]
              (set__api (Some (ApiRos None)) (init PlainClient))
              (ApiRos None) interfaces eq_refl eq_refl) as [v [H1 [H2 _]]].
  exists v. split; [exact H1 | exact (H2 eq_refl)].
Defined.

(** X18.  A port that is not an integer ([None], a string, a list, a
    tuple, a dictionary) makes the [port] setter raise [TypeError], which
    is not turned into the [ValueError] of an invalid port; the stored port
    is unchanged. *)
Theorem port_setter_not_int (s : session) (value : pyval) :
  (forall z, value <> PInt z) ->
  set_port value s = (Raise TypeError, s, []).
Proof.
  intros H. unfold set_port, try_except, mbind, lift, valid_port, int_lt, bind.
  destruct value; try reflexivity. now destruct (H z).
Qed.

Lemma port_setter_not_int_witness :
  set_port (PStr "8728") (init PlainClient) = (Raise TypeError, init PlainClient, [])
  /\ set_port PNone (init PlainClient) = (Raise TypeError, init PlainClient, []).
Proof.
  split; apply port_setter_not_int; intros z; discriminate.
Defined.

(** X19.  A client constructed with a non-empty address string and an
    integer port in 1..65535 is ready to connect: the constructor returns
    an object holding the address and the port (and, for the secure client,
    the two verify flags), and [_connect_socket] on the new object goes on
    to ask the resolver for exactly that address and port instead of
    reporting that the address has not been set.  With an integer port
    outside the range both constructors raise the [ValueError] of the
    setter. *)
Theorem constructor_port (E : env) (timeOut : pyval) (ch : ascii) (a : string)
        (z : Z) (cert addr : bool) :
  let host := PStr (String ch a) in
  let obj := mkSession PlainClient host (PInt z) None None None true true in
  let sobj := mkSession SslClient host (PInt z) None None None cert addr in
  (1 <= z <= 65535 ->
   TikapyClient host (PInt z) (init PlainClient) = (Ok tt, obj, [])
   /\ TikapySslClient host (PInt z) cert addr (init SslClient) = (Ok tt, sobj, [])
   /\ (exists tr, snd (_connect_socket E timeOut obj) = EvGetaddrinfo host (PInt z) :: tr)
   /\ (exists tr, snd (_connect_socket E timeOut sobj) = EvGetaddrinfo host (PInt z) :: tr))
  /\ (z < 1 \/ 65535 < z ->
      exists inner,
        fst (fst (TikapyClient host (PInt z) (init PlainClient)))
        = Raise (ValueError port_msg (Some (ValueError inner None)))
        /\ fst (fst (TikapySslClient host (PInt z) cert addr (init SslClient)))
           = Raise (ValueError port_msg (Some (ValueError inner None)))).
Proof.
  cbv zeta. unfold TikapySslClient, TikapyClient, mbind, modify.
  unfold set_port, try_except, mbind, lift, valid_port, int_lt, lt_int, bind.
  split.
  - intros H.
    assert ((0 <? z) = true) as H0 by (apply Z.ltb_lt; lia).
    assert ((z <? 65536) = true) as H1 by (apply Z.ltb_lt; lia).
    rewrite H0, H1. cbn [negb modify fst snd app].
    split; [reflexivity | split; [reflexivity|]].
    assert (Hready : forall s,
               _address s = PStr (String ch a) -> _port s = PInt z ->
               exists tr, snd (_connect_socket E timeOut s)
                          = EvGetaddrinfo (PStr (String ch a)) (PInt z) :: tr).
    { intros s Ha Hp.
      unfold _connect_socket, mbind, get, emit, lift, raise, ret.
      rewrite Ha, Hp. cbn [truthy String.eqb negb].
      assert ((z =? 0) = false) as -> by (apply Z.eqb_neq; lia). cbn [negb].
      destruct (getaddrinfo E (PStr (String ch a)) (PInt z)) as [cands|e];
        [|eexists; reflexivity].
      destruct (connect_loop timeOut cands s) as [[[[]|e] s'] tr];
        [|eexists; reflexivity].
      destruct (_base_sock s'); eexists; reflexivity. }
    split; apply Hready; reflexivity.
  - intros H. eexists.
    destruct (0 <? z) eqn:H0.
    + assert ((z <? 65536) = false) as -> by (apply Z.ltb_ge; apply Z.ltb_lt in H0; lia).
      split; reflexivity.
    + split; reflexivity.
Qed.

Lemma constructor_port_witness :
  TikapyClient (PStr "router.example") (PInt 8728) (init PlainClient)
  = (Ok tt,
     mkSession PlainClient (PStr "router.example") (PInt 8728) None None None
               true true, [])
  /\ exists inner,
      fst (fst (TikapySslClient (PStr "router.example") (PInt 70000) true false
                                (init SslClient)))
      = Raise (ValueError port_msg (Some (ValueError inner None))).
Proof.
  split.
  - apply (proj1 (constructor_port lab (PInt 60) "r"%char "outer.example" 8728
                    true true)). lia.
  - destruct (proj2 (constructor_port lab (PInt 60) "r"%char "outer.example" 70000
                       true false)) as [inner [_ H]]; [lia|].
    exists inner. exact H.
Defined.

End Exchange.

(** ** Properties of [disconnect] *)

Section Teardown.

Local Open Scope list_scope.

(** X20.  When closing a socket succeeds or raises [socket.error],
    [disconnect] does not raise: it closes the stream [_sock] and then the
    base socket [_base_sock], each if the session holds one, and swallows
    their errors.  It makes no call on a session that never connected.  It
    resets no attribute, so a second [disconnect] makes the same calls
    again. *)
Theorem disconnect_quiet (close : sock -> option exn) (s : session) :
  (forall sk e, close sk = Some e -> is_socket_error e = true) ->
  disconnect close s = (Ok tt, s, closes (_sock s) ++ closes (_base_sock s))
  /\ del close s = disconnect close s
  /\ (_sock s = None -> _base_sock s = None -> disconnect close s = (Ok tt, s, []))
  /\ disconnect close (snd (fst (disconnect close s))) = disconnect close s.
Proof.
  intros Hclose.
  assert (Hq : forall o, close_quietly close o s = (Ok tt, s, closes o)).
  { intros [sk|]; [|reflexivity].
    unfold close_quietly, try_except, call, mbind, emit, raise, ret. cbn.
    destruct (close sk) as [e|] eqn:He; [|reflexivity].
    rewrite (Hclose sk e He). reflexivity. }
  assert (Hd : disconnect close s
               = (Ok tt, s, closes (_sock s) ++ closes (_base_sock s))).
  { unfold disconnect, mbind at 1 2 3, get. rewrite Hq. cbn [app].
    rewrite Hq. reflexivity. }
  split; [exact Hd | split; [reflexivity | split]].
  - intros H1 H2. rewrite Hd, H1, H2. reflexivity.
  - rewrite Hd. cbn [fst snd]. exact Hd.
Qed.

Lemma disconnect_quiet_witness :
  disconnect close_fails
    (set__sock (Some (Socket 2 1 6))
               (set__base_sock (Some (Socket 2 1 6)) (router PlainClient true true)))
  = (Ok tt,
     set__sock (Some (Socket 2 1 6))
               (set__base_sock (Some (Socket 2 1 6)) (router PlainClient true true)),
     [EvClose (Socket 2 1 6); EvClose (Socket 2 1 6)])
  /\ disconnect close_ok (init PlainClient) = (Ok tt, init PlainClient, []).
Proof.
  assert (Hf : forall sk e, close_fails sk = Some e -> is_socket_error e = true)
    by (intros sk e H; inversion H; reflexivity).
  assert (Ho : forall sk e, close_ok sk = Some e -> is_socket_error e = true)
    by (intros sk e H; discriminate H).
  split.
  - exact (proj1 (disconnect_quiet close_fails _ Hf)).
  - exact (proj1 (disconnect_quiet close_ok _ Ho)).
Defined.

(** X21.  After a [_connect] that returned, [disconnect] closes the stream
    and then the base socket.  For the plain client the two are the same
    socket object, which is closed twice; for the secure client the TLS
    socket is closed before the socket it wraps. *)
Theorem disconnect_after_connect (E : env) (timeOut : pyval)
        (close : sock -> option exn) (s s' : session) (tr : list event) :
  (forall sk e, close sk = Some e -> is_socket_error e = true) ->
  _connect E timeOut s = (Ok tt, s', tr) ->
  exists stream base,
    disconnect close s' = (Ok tt, s', [EvClose stream; EvClose base])
    /\ match cls s with
       | PlainClient => stream = base
       | SslClient => exists ctx, stream = SSLSocket ctx base (_address s)
       end.
Proof.
  intros Hclose Hc.
  destruct (connect_success_stream E timeOut s s' tr Hc)
    as [_ [stream [base [Hst [Hb Hk]]]]].
  exists stream, base. split; [|exact Hk].
  assert (Hq : forall o, close_quietly close o s' = (Ok tt, s', closes o)).
  { intros [sk|]; [|reflexivity].
    unfold close_quietly, try_except, call, mbind, emit, raise, ret. cbn.
    destruct (close sk) as [e|] eqn:He; [|reflexivity].
    rewrite (Hclose sk e He). reflexivity. }
  unfold disconnect, mbind at 1 2 3, get. rewrite Hq. cbn [app].
  rewrite Hq, Hst, Hb. reflexivity.
Qed.

Lemma disconnect_after_connect_witness :
  exists stream base,
    disconnect close_ok
      (snd (fst (_connect lab (PInt 60) (router PlainClient true true))))
    = (Ok tt, snd (fst (_connect lab (PInt 60) (router PlainClient true true))),
       [EvClose stream; EvClose base])
    /\ stream = base.
Proof.
  assert (Ho : forall sk e, close_ok sk = Some e -> is_socket_error e = true)
    by (intros sk e H; discriminate H).
  destruct (disconnect_after_connect lab (PInt 60) close_ok
              (router PlainClient true true) _ _ Ho eq_refl)
    as [stream [base [H1 H2]]].
  exists stream, base. split; [exact H1 | exact H2].
Defined.

(** X22.  Only [socket.error] is swallowed.  When closing the stream
    raises another exception, it leaves [disconnect], and the base socket
    is not closed. *)
Theorem disconnect_other_error (close : sock -> option exn) (s : session)
        (sk : sock) (e : exn) :
  _sock s = Some sk ->
  close sk = Some e ->
  is_socket_error e = false ->
  disconnect close s = (Raise e, s, [EvClose sk]).
Proof.
  intros Hs Hc He.
  unfold disconnect, mbind at 1 2, get. rewrite Hs.
  unfold close_quietly, try_except, call, mbind, emit, raise, ret. cbn.
  rewrite Hc, He. reflexivity.
Qed.

Lemma disconnect_other_error_witness :
  disconnect (fun _ => Some TypeError)
    (set__sock (Some (Socket 2 1 6))
               (set__base_sock (Some (Socket 2 1 6)) (router PlainClient true true)))
  = (Raise TypeError,
     set__sock (Some (Socket 2 1 6))
               (set__base_sock (Some (Socket 2 1 6)) (router PlainClient true true)),
     [EvClose (Socket 2 1 6)]).
Proof.
  apply (disconnect_other_error (fun _ => Some TypeError) _ (Socket 2 1 6) TypeError);
    reflexivity.
Defined.

End Teardown.

(** ** Further properties of [tik_to_json] *)

Section Normalisation.

Local Open Scope nat_scope.
Local Open Scope list_scope.

Lemma first_appearances_nodup (l : list string) : NoDup (first_appearances l).
Proof.
  induction l as [|x l IH]; [constructor|].
  cbn [first_appearances]. constructor.
  - rewrite filter_In. intros [_ H]. now rewrite String.eqb_refl in H.
  - now apply NoDup_filter.
Qed.

Lemma first_appearances_length (l : list string) :
  List.length (first_appearances l) <= List.length l.
Proof.
  induction l as [|x l IH]; [reflexivity|].
  cbn [first_appearances List.length].
  pose proof (filter_length_le (fun k' => negb (k' =? x)%string)
                               (first_appearances l)).
  lia.
Qed.

Lemma keyed_length (s : sentence) : List.length (keyed s) <= List.length s.
Proof.
  induction s as [|[tag a] s IH]; [reflexivity|].
  cbn [keyed List.length]. destruct (id_key a); cbn [List.length]; lia.
Qed.

Lemma keyed_in (s : sentence) (tag : string) (a : attrs) (k : string) :
  In (tag, a) s -> id_key a = Some k -> In (k, a) (keyed s).
Proof.
  induction s as [|[tag' a'] s IH]; [intros []|].
  cbn [keyed In]. intros [H | H] Hk.
  - inversion H. subst. rewrite Hk. left. reflexivity.
  - destruct (id_key a'); [right|]; now apply IH.
Qed.

(** X23.  On a well-typed sentence that is not answered by the scalar
    branch, the mapping returned is a proper dictionary: no key occurs
    twice, every record that has an [.id] is represented by its key, and
    there are at most as many entries as records. *)
Theorem tik_to_json_dictionary (s : sentence) :
  scalar_hit s = false ->
  exists m,
    tik_to_json (py_sentence s) = Ok (py_mapping m)
    /\ NoDup (map fst m)
    /\ List.length m <= List.length s
    /\ (forall tag a k, In (tag, a) s -> id_key a = Some k ->
                        exists a', assoc m k = Some a' /\ id_key a' = Some k).
Proof.
  intros Hs. exists (build (keyed s)).
  split; [now apply tik_to_json_typed|].
  split; [rewrite build_keys; apply first_appearances_nodup|].
  split.
  - rewrite <- (length_map fst), build_keys.
    pose proof (first_appearances_length (map fst (keyed s))) as H1.
    pose proof (keyed_length s) as H2. rewrite length_map in H1. lia.
  - intros tag a k Hin Hk. rewrite build_assoc.
    pose proof (keyed_in s tag a k Hin Hk) as Hkey.
    assert (Hlast : forall (l : list (string * attrs)),
               In (k, a) l ->
               (forall k' a', In (k', a') l -> id_key a' = Some k') ->
               exists a', last_binding l k = Some a' /\ id_key a' = Some k).
    { induction l as [|[k0 a0] l IH]; [intros []|].
      intros Hl Hall. cbn [last_binding].
      destruct (last_binding l k) as [a1|] eqn:H1.
      - destruct Hl as [Hl | Hl].
        + assert (Hex : exists a', Some a1 = Some a' /\ id_key a' = Some k).
          { clear IH. revert a1 H1.
            induction l as [|[k2 a2] l IHl]; [discriminate|].
            cbn [last_binding]. intros a1.
            destruct (last_binding l k) as [a3|] eqn:H3.
            - intros H. inversion H. subst. apply (IHl); auto.
              intros k' a' Hi. apply Hall. destruct Hi as [Hi | Hi]; [left; exact Hi|].
              right. right. exact Hi.
            - destruct (String.eqb_spec k2 k) as [-> | Hne]; [|discriminate].
              intros H. inversion H. subst. exists a1. split; [reflexivity|].
              apply Hall. right. left. reflexivity. }
          exact Hex.
        + apply IH; [exact Hl|]. intros k' a' Hi. apply Hall. right. exact Hi.
      - destruct Hl as [Hl | Hl].
        + inversion Hl. subst. rewrite String.eqb_refl. eauto.
        + destruct (IH Hl) as [a' [Ha' _]].
          * intros k' a' Hi. apply Hall. right. exact Hi.
          * discriminate Ha'. }
    apply Hlast; [exact Hkey|].
    clear. induction s as [|[tag a] s IH]; [intros k' a' []|].
    cbn [keyed]. destruct (id_key a) as [k0|] eqn:Hk0; [|exact IH].
    intros k' a' [H | H]; [inversion H; subst; exact Hk0 | now apply IH].
Qed.

Lemma tik_to_json_dictionary_witness :
  exists m,
    tik_to_json (py_sentence twice) = Ok (py_mapping m)
    /\ NoDup (map fst m) /\ List.length m <= 3.
Proof.
  destruct (tik_to_json_dictionary twice eq_refl) as [m [H1 [H2 [H3 _]]]].
  exists m. split; [exact H1 | split; [exact H2 | exact H3]].
Defined.

(** X24.  A string is not a sentence: on every non-empty string
    [tik_to_json] raises [ClientError('unable to convert api output to
    json')], caused by the [IndexError] of looking up the second component
    of its first character; on the empty string it returns the empty
    mapping. *)
Theorem tik_to_json_string (str : string) :
  tik_to_json (PStr str)
  = match str with
    | EmptyString => Ok (PDict [])
    | String _ _ => Raise (ClientError json_msg (Some IndexError))
    end.
Proof.
  destruct str as [|c rest]; [reflexivity|].
  assert (H0 : getitem (PStr (String c rest)) (PInt 0) = Ok (PStr (String c EmptyString))).
  { cbn [getitem]. unfold str_getitem, norm_index. cbn [Z.leb Z.compare].
    assert ((0 <? Z.of_nat (String.length (String c rest)))%Z = true) as ->
        by (apply Z.ltb_lt; cbn [String.length]; lia).
    reflexivity. }
  assert (Hs : scalar_step (PStr (String c rest)) = Ok FellThrough).
  { unfold scalar_step, scalar_body. rewrite H0. cbn [bind].
    change (getitem (PStr (String c EmptyString)) (PInt 0))
      with (Ok (A:=pyval) (PStr (String c EmptyString))).
    cbn [bind eq_str String.eqb]. destruct (Ascii.eqb c "!"); reflexivity. }
  unfold tik_to_json. rewrite Hs. unfold mapping_step, mapping_body.
  cbn [iter chars bind mapM]. reflexivity.
Qed.

End Normalisation.
